(** * Code-analysis tools of SW_Dev_MCP.py

    A shallow embedding of the tree-walking and single-file analysis tools
    ([search_code], [find_files], [count_lines_of_code], [find_todos],
    [find_duplicate_lines], [extract_imports]) and the properties the
    specification states about them.

    Conventions.
    - A Python [str] is a [string]; each character is a code point below 256.
    - The file system is a tree of named nodes; the text of a file is what
      Python's text-mode reader delivers (decoded, newlines translated).
      Paths are POSIX paths, written as pathlib writes them.
    - An exception of pathlib during a walk (at the root, or at an entry
      whose [is_file] raises) ends the walk and is answered by the tool's
      outer handler.
    - Python's [re] module is an interface ([re_module]) for patterns that come
      from the caller, and a small backtracking matcher ([Re]) for the
      patterns that are written in the source. *)

From Stdlib Require Import Bool Arith Lia List ZArith.
From Stdlib Require Import Ascii String DecimalString.
From Stdlib Require Import Sorted.
Import ListNotations.

Local Open Scope list_scope.
Local Open Scope string_scope.
Local Open Scope nat_scope.

Set Warnings "-register-all".

(** ** Python string methods *)

Module Str.

(** [c.isspace()] for a code point below 256: TAB..CR, FS..US, space, NEL
    and the no-break space. *)
Definition isspace (c : ascii) : bool :=
  let n := nat_of_ascii c in
  ((9 <=? n) && (n <=? 13)) || ((28 <=? n) && (n <=? 32))
  || (n =? 133) || (n =? 160).

(** [s.lstrip()] *)
Fixpoint lstrip (s : string) : string :=
  match s with
  | String c s' => if isspace c then lstrip s' else s
  | EmptyString => EmptyString
  end.

(** [s.rstrip()] *)
Fixpoint rstrip (s : string) : string :=
  match s with
  | String c s' =>
      match rstrip s' with
      | EmptyString => if isspace c then EmptyString else String c EmptyString
      | r => String c r
      end
  | EmptyString => EmptyString
  end.

(** [s.strip()] *)
Definition strip (s : string) : string := rstrip (lstrip s).

(** [s[n:]] *)
Fixpoint drop (n : nat) (s : string) : string :=
  match n, s with
  | S n', String _ s' => drop n' s'
  | _, _ => s
  end.

(** [s[:n]] *)
Fixpoint take (n : nat) (s : string) : string :=
  match n, s with
  | S n', String c s' => String c (take n' s')
  | _, _ => EmptyString
  end.

(** [s.split(sep)] for a one-character separator: the pieces between the
    separators; there is always at least one piece. *)
Fixpoint split (sep : ascii) (s : string) : list string :=
  match s with
  | EmptyString => [EmptyString]
  | String c s' =>
      if Ascii.eqb c sep then EmptyString :: split sep s'
      else match split sep s' with
           | piece :: rest => String c piece :: rest
           | [] => [String c EmptyString]
           end
  end.

(** [sep.join(xs)] *)
Fixpoint join (sep : string) (xs : list string) : string :=
  match xs with
  | [] => EmptyString
  | [x] => x
  | x :: rest => x ++ sep ++ join sep rest
  end.

(** [s.rfind(c)]: the index of the last occurrence of [c]. *)
Fixpoint rfind (c : ascii) (s : string) : option nat :=
  match s with
  | EmptyString => None
  | String d s' =>
      match rfind c s' with
      | Some i => Some (S i)
      | None => if Ascii.eqb d c then Some 0 else None
      end
  end.

(** [c in s] for a character. *)
Fixpoint contains (c : ascii) (s : string) : bool :=
  match s with
  | EmptyString => false
  | String d s' => Ascii.eqb d c || contains c s'
  end.

(** [x in xs] for a list of strings. *)
Definition mem (x : string) (xs : list string) : bool :=
  existsb (String.eqb x) xs.

(** [str(n)] for a non-negative integer. *)
Definition of_nat (n : nat) : string :=
  NilEmpty.string_of_uint (Nat.to_uint n).

(** ASCII letters only; enough for the marker keywords. *)
Definition upper_char (c : ascii) : ascii :=
  let n := nat_of_ascii c in
  if (97 <=? n) && (n <=? 122) then ascii_of_nat (n - 32) else c.

Definition lower_char (c : ascii) : ascii :=
  let n := nat_of_ascii c in
  if (65 <=? n) && (n <=? 90) then ascii_of_nat (n + 32) else c.

Fixpoint upper (s : string) : string :=
  match s with
  | EmptyString => EmptyString
  | String c s' => String (upper_char c) (upper s')
  end.

Definition newline : string := String "010" EmptyString.

(** Iterating over an open text file: the text is cut after every newline,
    each line keeps its newline, and a last line without one is kept. *)
Fixpoint lines_from (cur : string -> string) (s : string) : list string :=
  match s with
  | EmptyString =>
      match cur EmptyString with
      | EmptyString => []
      | l => [l]
      end
  | String c s' =>
      if Ascii.eqb c "010"
      then cur (String c EmptyString) :: lines_from (fun t => t) s'
      else lines_from (fun t => cur (String c t)) s'
  end.

Definition iter_lines (text : string) : list string :=
  lines_from (fun t => t) text.

End Str.

(** ** The fragment of Python's [re] that the source's own patterns use *)

Module Re.

(** A one-character class. *)
Inductive cset :=
| CAny                 (* .  : anything but a newline *)
| CSpace               (* \s *)
| CLit (c : ascii).    (* a literal character *)

Inductive regex :=
| Eps                          (* the empty pattern *)
| One (cs : cset)
| Bol                          (* ^ without MULTILINE *)
| Cat (r1 r2 : regex)
| Alt (r1 r2 : regex)
| Star (cs : cset)             (* greedy * *)
| Plus (cs : cset)             (* greedy + *)
| Group (n : nat) (r : regex). (* capturing group number n *)

(** A literal run of characters. *)
Fixpoint lit (s : string) : regex :=
  match s with
  | EmptyString => Eps
  | String c s' => Cat (One (CLit c)) (lit s')
  end.

(** Membership of a character of the text in a class. The text holds code
    points below 256 only; there IGNORECASE pairs a letter of ASCII with its
    other case and with nothing else (the characters that Python also folds
    to a letter of ASCII, U+212A, U+017F, U+0130 and U+0131, lie above). *)
Definition cset_mem (ignorecase : bool) (cs : cset) (c : ascii) : bool :=
  match cs with
  | CAny => negb (Ascii.eqb c "010")
  | CSpace => Str.isspace c
  | CLit d =>
      if ignorecase then Ascii.eqb (Str.lower_char c) (Str.lower_char d)
      else Ascii.eqb c d
  end.

Definition captures := list (nat * string).

Record found := { m_end : nat; m_groups : captures }.

Section Matcher.
Variable ignorecase : bool.

(** Greedy repetition of a class: take one more character when possible,
    and give it back when the rest of the pattern fails. *)
Fixpoint repeat_cset (cs : cset) (pos : nat) (s : string)
         (k : nat -> string -> option found) : option found :=
  match s with
  | String c s' =>
      if cset_mem ignorecase cs c then
        match repeat_cset cs (S pos) s' k with
        | Some m => Some m
        | None => k pos s
        end
      else k pos s
  | EmptyString => k pos s
  end.

(** The backtracking matcher, in continuation-passing style: [run r pos s
    caps k] matches [r] at offset [pos], where [s] is the text from there
    on, and hands the rest to [k]. Alternatives are tried left to right. *)
Fixpoint run (r : regex) (pos : nat) (s : string) (caps : captures)
         (k : nat -> string -> captures -> option found) : option found :=
  match r with
  | Eps => k pos s caps
  | One cs =>
      match s with
      | String c s' => if cset_mem ignorecase cs c then k (S pos) s' caps else None
      | EmptyString => None
      end
  | Bol => if pos =? 0 then k pos s caps else None
  | Cat r1 r2 => run r1 pos s caps (fun pos1 s1 caps1 => run r2 pos1 s1 caps1 k)
  | Alt r1 r2 =>
      match run r1 pos s caps k with
      | Some m => Some m
      | None => run r2 pos s caps k
      end
  | Star cs => repeat_cset cs pos s (fun pos1 s1 => k pos1 s1 caps)
  | Plus cs =>
      match s with
      | String c s' =>
          if cset_mem ignorecase cs c
          then repeat_cset cs (S pos) s' (fun pos1 s1 => k pos1 s1 caps)
          else None
      | EmptyString => None
      end
  | Group n r1 =>
      run r1 pos s caps
          (fun pos1 s1 caps1 => k pos1 s1 ((n, Str.take (pos1 - pos) s) :: caps1))
  end.

Definition finish (pos : nat) (_ : string) (caps : captures) : option found :=
  Some {| m_end := pos; m_groups := caps |}.

(** [pattern.match(s)]: a match that starts at offset 0. *)
Definition re_match (r : regex) (s : string) : option found :=
  run r 0 s [] finish.

(** [pattern.search(s)]: the leftmost offset at which the pattern matches. *)
Fixpoint search_at (r : regex) (pos : nat) (s : string) : option found :=
  match run r pos s [] finish with
  | Some m => Some m
  | None =>
      match s with
      | String _ s' => search_at r (S pos) s'
      | EmptyString => None
      end
  end.

Definition search (r : regex) (s : string) : option found := search_at r 0 s.
End Matcher.

(** [m.group(n)] *)
Fixpoint group (n : nat) (caps : captures) : string :=
  match caps with
  | [] => EmptyString
  | (i, t) :: rest => if i =? n then t else group n rest
  end.

End Re.

(** ** File system *)

(** What opening a file and reading it as text gives: its text, or the
    message of the [OSError] that [open] raises. *)
Inductive content :=
| Text (text : string)
| Unreadable (reason : string).

(** What a path names. [Blocked] is a path whose [stat] fails with an error
    that pathlib does not take for an answer (permission denied below a
    directory that cannot be searched, a name that is too long): [exists],
    [is_dir] and [is_file] raise there; [reason] is the text of the
    exception. *)
Inductive node :=
| File (name : string) (c : content)
| Dir (name : string) (children : list node)
| Blocked (name : string) (reason : string).

(** Induction on trees, with the hypothesis for every child. *)
Fixpoint node_children_ind (P : node -> Prop)
         (Hfile : forall name c, P (File name c))
         (Hdir : forall name cs, Forall P cs -> P (Dir name cs))
         (Hblocked : forall name reason, P (Blocked name reason))
         (n : node) : P n :=
  match n with
  | File name c => Hfile name c
  | Dir name cs =>
      Hdir name cs
           ((fix children (l : list node) : Forall P l :=
               match l with
               | [] => Forall_nil P
               | c :: rest =>
                   Forall_cons c (node_children_ind P Hfile Hdir Hblocked c)
                               (children rest)
               end) cs)
  | Blocked name reason => Hblocked name reason
  end.

Definition node_name (n : node) : string :=
  match n with
  | File name _ => name
  | Dir name _ => name
  | Blocked name _ => name
  end.

(** The file system as a tool sees it: what the path it was given names.
    [None] is a path that does not exist. *)
Definition filesystem := string -> option node.

(** *** Paths as pathlib writes them (POSIX) *)

Definition is_part (x : string) : bool :=
  negb (String.eqb x "") && negb (String.eqb x ".").

(** The components of a path: the pieces between slashes, without the
    empty pieces and the single dots. *)
Definition path_parts (p : string) : list string :=
  filter is_part (Str.split "/" p).

(** The root of a path: [//] for exactly two leading slashes, [/] for one
    and for three or more, none for a relative path. *)
Definition path_root (p : string) : string :=
  match p with
  | String "/" (String "/" (String "/" _)) => "/"
  | String "/" (String "/" _) => "//"
  | String "/" _ => "/"
  | _ => ""
  end.

(** [str(Path(p))]: the root and the components joined by single slashes;
    [.] for a path with neither. *)
Definition normal_path (p : string) : string :=
  match path_root p, path_parts p with
  | EmptyString, [] => "."
  | root, parts => root ++ Str.join "/" parts
  end.

(** [Path(p).name]: the last component. *)
Definition path_name (p : string) : string := last (path_parts p) "".

(** [str(parent / name)] for a parent that [normal_path] wrote and the name
    of a directory entry. *)
Definition child_path (parent name : string) : string :=
  if String.eqb parent "." then name
  else if String.eqb parent "/" then "/" ++ name
  else if String.eqb parent "//" then "//" ++ name
  else parent ++ "/" ++ name.

(** What [rglob] yields: a path object, and what [is_file] and [open] find
    there; [StatFails] is an entry at which [is_file] raises. *)
Inductive kind :=
| IsFile (c : content)
| IsDir
| StatFails (reason : string).

Record entry := { e_path : string; e_name : string; e_kind : kind }.

Definition entry_in (parent : string) (n : node) : entry :=
  {| e_path := child_path parent (node_name n);
     e_name := node_name n;
     e_kind := match n with
               | File _ c => IsFile c
               | Dir _ _ => IsDir
               | Blocked _ reason => StatFails reason
               end |}.

(** [file_path.is_file()] raising: pathlib answers [False] for a missing
    path and re-raises every other error of [stat]. *)
Definition is_file_error (e : entry) : option string :=
  match e_kind e with
  | StatFails reason => Some reason
  | _ => None
  end.

(** [file_path.is_file()] where it answers. *)
Definition is_file (e : entry) : bool :=
  match e_kind e with
  | IsFile _ => true
  | IsDir => false
  | StatFails _ => false
  end.

(** The entries below a directory node that sits in [parent]: first its own
    entries, then those of each sub-directory in turn. *)
Fixpoint descend (parent : string) (n : node) : list entry :=
  match n with
  | Dir name cs =>
      let here := child_path parent name in
      map (entry_in here) cs ++ flat_map (descend here) cs
  | File _ _ => []
  | Blocked _ _ => []
  end.

(** What [Path(directory).rglob("*")] yields: every entry below the
    directory, each under the path pathlib writes for it; nothing when the
    path is missing or is not a directory; and the exception of [is_dir]
    when the check of the root itself raises. The order is one pathlib
    uses: the entries of a directory as the system lists them, then those
    of its sub-directories; the properties below take the walk as it
    comes. *)
Definition listing (fs : filesystem) (directory : string) : string + list entry :=
  match fs directory with
  | Some (Dir _ cs) =>
      inr (map (entry_in (normal_path directory)) cs
           ++ flat_map (descend (normal_path directory)) cs)%list
  | Some (Blocked _ reason) => inl reason
  | _ => inr []
  end.

(** The entries a loop [for file_path in ...: if file_path.is_file(): ...]
    gets through: those before the first one at which [is_file] raises. *)
Fixpoint visited (entries : list entry) : list entry :=
  match entries with
  | [] => []
  | e :: rest =>
      match is_file_error e with
      | Some _ => []
      | None => e :: visited rest
      end
  end.

(** The exception that ends such a loop, when there is one. *)
Fixpoint first_error (entries : list entry) : option string :=
  match entries with
  | [] => None
  | e :: rest =>
      match is_file_error e with
      | Some reason => Some reason
      | None => first_error rest
      end
  end.

(** The walk of a tool as far as it gets: the entries of
    [Path(directory).rglob("*")] that its loop goes through before pathlib
    raises, if it does. *)
Definition rglob (fs : filesystem) (directory : string) : list entry :=
  match listing fs directory with
  | inr entries => visited entries
  | inl _ => []
  end.

(** The exception that ends the walk, which the tool's outer [except]
    catches: that of the check of the root, or that of [is_file] on an
    entry. [None] when the walk runs to its end. *)
Definition walk_error (fs : filesystem) (directory : string) : option string :=
  match listing fs directory with
  | inr entries => first_error entries
  | inl reason => Some reason
  end.

(** [root.is_dir()]: its answer, or the text of the exception it raises. *)
Definition is_dir (fs : filesystem) (directory : string) : string + bool :=
  match fs directory with
  | Some (Dir _ _) => inr true
  | Some (Blocked _ reason) => inl reason
  | _ => inr false
  end.

(** [PurePath.suffix]: the name from its last dot on, unless that dot is the
    first or the last character of the name. *)
Definition suffix (name : string) : string :=
  match Str.rfind "." name with
  | Some i =>
      if (0 <? i) && (i <? String.length name - 1) then Str.drop i name
      else EmptyString
  | None => EmptyString
  end.

(** [open(file_path, 'r', encoding='utf-8', errors='ignore')] inside the
    per-file [try]: [None] when it raises. *)
Definition open_entry (e : entry) : option string :=
  match e_kind e with
  | IsFile (Text text) => Some text
  | _ => None
  end.

(** ** Python's [re] for patterns that come from the caller *)

Record re_module := {
  re_pattern : Type;
  (** [re.compile(pattern, re.IGNORECASE)]; [None] when it raises [re.error] *)
  re_compile : string -> option re_pattern;
  (** [compiled.search(line) is not None] *)
  re_found : re_pattern -> string -> bool
}.

(** [re.search(pattern, line, re.IGNORECASE)]: [None] when it raises, else
    whether there is a match. *)
Definition re_search (re : re_module) (pattern line : string) : option bool :=
  match re_compile re pattern with
  | Some p => Some (re_found re p line)
  | None => None
  end.

(** An instance for the examples: a pattern made of letters, digits, spaces
    and underscores only is searched as it is written, ignoring case; any
    other pattern is outside what this instance covers and is rejected, as
    Python rejects the pattern [(] that the examples use. *)
Definition plain_char (c : ascii) : bool :=
  let n := nat_of_ascii c in
  ((48 <=? n) && (n <=? 57)) || ((65 <=? n) && (n <=? 90))
  || ((97 <=? n) && (n <=? 122)) || (n =? 32) || (n =? 95).

Fixpoint all_plain (s : string) : bool :=
  match s with
  | EmptyString => true
  | String c s' => plain_char c && all_plain s'
  end.

Definition literal_re : re_module := {|
  re_pattern := Re.regex;
  re_compile := fun p => if all_plain p then Some (Re.lit p) else None;
  re_found := fun r line =>
    match Re.search true r line with Some _ => true | None => false end
|}.

(** ** Extension filter *)

(** [[ext.strip() for ext in file_extensions.split(",")] if file_extensions
    else None] *)
Definition parse_extensions (file_extensions : option string)
  : option (list string) :=
  match file_extensions with
  | Some (String c s) => Some (map Str.strip (Str.split "," (String c s)))
  | _ => None
  end.

(** [extensions and file_path.suffix[1:] not in extensions] *)
Definition filtered_out (extensions : option (list string)) (e : entry) : bool :=
  match extensions with
  | Some (x :: xs) => negb (Str.mem (Str.drop 1 (suffix (e_name e))) (x :: xs))
  | _ => false
  end.

(** ** search_code *)

Inductive event :=
| Opened (path : string)
| ReadLine (path : string) (line_num : nat).

(** The state of the search loop: the [results] list and, to speak of side
    effects, the record of what was opened and read. *)
Record scan := { results : list string; log : list event }.

Definition note (ev : event) (st : scan) : scan :=
  {| results := results st; log := log st ++ [ev] |}.

Definition append_result (r : string) (st : scan) : scan :=
  {| results := results st ++ [r]; log := log st |}.

(** [f"{file_path}:{line_num}: {line.strip()}"] *)
Definition format_hit (path : string) (line_num : nat) (line : string) : string :=
  path ++ ":" ++ Str.of_nat line_num ++ ": " ++ Str.strip line.

Section Search.
Variable re : re_module.

(** The body of [with open(...) as f: for line_num, line in enumerate(f, 1)].
    A [re.error] leaves the loop; the bare [except] then moves on to the
    next file, and what was appended before stays appended. *)
Fixpoint scan_lines (pattern path : string) (line_num : nat)
         (lines : list string) (st : scan) : scan :=
  match lines with
  | [] => st
  | line :: rest =>
      let st := note (ReadLine path line_num) st in
      match re_search re pattern line with
      | None => st
      | Some true =>
          scan_lines pattern path (S line_num) rest
                     (append_result (format_hit path line_num line) st)
      | Some false => scan_lines pattern path (S line_num) rest st
      end
  end.

(** One turn of [for file_path in path.rglob("*")]. *)
Definition search_visit (pattern : string) (extensions : option (list string))
           (st : scan) (e : entry) : scan :=
  if is_file e then
    if filtered_out extensions e then st
    else match open_entry e with
         | Some text =>
             scan_lines pattern (e_path e) 1 (Str.iter_lines text)
                        (note (Opened (e_path e)) st)
         | None => st
         end
  else st.

Definition search_entries (pattern : string) (extensions : option (list string))
           (entries : list entry) : scan :=
  fold_left (search_visit pattern extensions) entries
            {| results := []; log := [] |}.

Definition search_run (fs : filesystem) (pattern directory : string)
           (file_extensions : option string) : scan :=
  search_entries pattern (parse_extensions file_extensions) (rglob fs directory).

(** [results[:100]] *)
Definition search_hits (fs : filesystem) (pattern directory : string)
           (file_extensions : option string) : list string :=
  firstn 100 (results (search_run fs pattern directory file_extensions)).

(** The tool. An exception of the walk itself (the check of the root, or
    [is_file] on an entry) is outside the per-file [try]: the outer handler
    answers with its text and what was collected is dropped. *)
Definition search_code (fs : filesystem) (pattern directory : string)
           (file_extensions : option string) : string :=
  match walk_error fs directory with
  | Some reason => "Error searching code: " ++ reason
  | None =>
      match results (search_run fs pattern directory file_extensions) with
      | [] => "No matches found for pattern '" ++ pattern ++ "'"
      | _ => Str.join Str.newline (search_hits fs pattern directory file_extensions)
      end
  end.
End Search.

(** ** count_lines_of_code *)

(** A [Counter] (and the [dict] made from it): keys in the order in which
    they were first added. *)
Definition counter := list (string * nat).

(** [c[k] += n] *)
Fixpoint counter_add (k : string) (n : nat) (c : counter) : counter :=
  match c with
  | [] => [(k, n)]
  | (k', v) :: c' =>
      if String.eqb k k' then (k', v + n) :: c'
      else (k', v) :: counter_add k n c'
  end.

(** [sum(c.values())] *)
Definition counter_total (c : counter) : nat :=
  fold_right (fun kv acc => snd kv + acc) 0 c.

(** The [result] dict that [count_lines_of_code] hands to [json.dumps]. *)
Record summary := {
  total_files : nat;
  total_lines : nat;
  by_extension : counter
}.

(** The summary of a walk that met no file. *)
Definition empty_summary : summary :=
  {| total_files := 0; total_lines := 0; by_extension := [] |}.

(** [file_path.suffix[1:] or "no extension"] *)
Definition extension_key (e : entry) : string :=
  match Str.drop 1 (suffix (e_name e)) with
  | EmptyString => "no extension"
  | ext => ext
  end.

(** One turn of the loop of [count_lines_of_code]; [lines] is
    [sum(1 for _ in f)]. *)
Definition count_visit (extensions : option (list string))
           (acc : summary) (e : entry) : summary :=
  if is_file e then
    if filtered_out extensions e then acc
    else match open_entry e with
         | Some text =>
             let lines := List.length (Str.iter_lines text) in
             {| total_files := total_files acc + 1;
                total_lines := total_lines acc + lines;
                by_extension := counter_add (extension_key e) lines (by_extension acc) |}
         | None => acc
         end
  else acc.

Definition count_entries (extensions : option (list string))
           (entries : list entry) : summary :=
  fold_left (count_visit extensions) entries
            {| total_files := 0; total_lines := 0; by_extension := [] |}.

(** The [result] dict of the tool, made of the variables of its loop. *)
Definition count_lines_of_code (fs : filesystem) (directory : string)
           (file_extensions : option string) : summary :=
  count_entries (parse_extensions file_extensions) (rglob fs directory).

(** What the tool returns, up to [json.dumps]: the [result] dict when the
    walk runs to its end, and the text of the outer handler when the walk
    raises. *)
Definition count_lines_answer (fs : filesystem) (directory : string)
           (file_extensions : option string) : string + summary :=
  match walk_error fs directory with
  | Some reason => inl ("Error counting lines: " ++ reason)
  | None => inr (count_lines_of_code fs directory file_extensions)
  end.

(** ** find_files *)

Section FindFiles.
(** [path.rglob(pattern)] for a pattern of the caller: pathlib either
    refuses the pattern with an exception (its message is given) or yields
    the entries below the root that the pattern selects. *)
Variable glob : string -> string + (entry -> bool).

(** The loop calls [is_file] on the selected entries only; an exception
    there, like one of the check of the root, reaches the outer handler. *)
Definition find_files (fs : filesystem) (pattern directory : string) : string :=
  match glob pattern with
  | inl message => "Error finding files: " ++ message
  | inr selects =>
      match listing fs directory with
      | inl reason => "Error finding files: " ++ reason
      | inr entries =>
          match first_error (filter selects entries) with
          | Some reason => "Error finding files: " ++ reason
          | None =>
              let matches := map e_path (filter is_file (filter selects entries)) in
              match matches with
              | [] => "No files found matching '" ++ pattern ++ "'"
              | _ => Str.join Str.newline matches
              end
          end
      end
  end.
End FindFiles.

(** ** find_todos *)

(** [re.compile(r'(TODO|FIXME|NOTE|XXX|HACK):\s*(.+)', re.IGNORECASE)] *)
Definition todo_pattern : Re.regex :=
  Re.Cat
    (Re.Group 1
       (Re.Alt (Re.lit "TODO")
          (Re.Alt (Re.lit "FIXME")
             (Re.Alt (Re.lit "NOTE")
                (Re.Alt (Re.lit "XXX") (Re.lit "HACK"))))))
    (Re.Cat (Re.One (Re.CLit ":"))
       (Re.Cat (Re.Star Re.CSpace)
          (Re.Group 2 (Re.Plus Re.CAny)))).

Definition source_suffixes : list string :=
  [".py"; ".js"; ".ts"; ".java"; ".cpp"; ".c"; ".go"; ".rs"; ".rb"; ".php"].

(** [f"{file_path}:{line_num} - {match.group(1).upper()}: {match.group(2).strip()}"] *)
Definition format_todo (path : string) (line_num : nat) (m : Re.found) : string :=
  path ++ ":" ++ Str.of_nat line_num ++ " - "
       ++ Str.upper (Re.group 1 (Re.m_groups m)) ++ ": "
       ++ Str.strip (Re.group 2 (Re.m_groups m)).

Fixpoint todo_lines (path : string) (line_num : nat) (lines : list string)
         (todos : list string) : list string :=
  match lines with
  | [] => todos
  | line :: rest =>
      match Re.search true todo_pattern line with
      | Some m =>
          todo_lines path (S line_num) rest (todos ++ [format_todo path line_num m])
      | None => todo_lines path (S line_num) rest todos
      end
  end.

Definition todo_visit (todos : list string) (e : entry) : list string :=
  if is_file e && Str.mem (suffix (e_name e)) source_suffixes then
    match open_entry e with
    | Some text => todo_lines (e_path e) 1 (Str.iter_lines text) todos
    | None => todos
    end
  else todos.

Definition todo_hits (fs : filesystem) (directory : string) : list string :=
  fold_left todo_visit (rglob fs directory) [].

(** The tool: the outer handler answers when the walk raises. *)
Definition find_todos (fs : filesystem) (directory : string) : string :=
  match walk_error fs directory with
  | Some reason => "Error finding TODOs: " ++ reason
  | None =>
      match todo_hits fs directory with
      | [] => "No TODOs/FIXMEs found"
      | todos => Str.join Str.newline todos
      end
  end.

(** ** Single-file tools *)

(** [path.exists()] and then [open(path, 'r', ...)] on the path the caller
    named, for a path that is there: the text, or the message of the
    exception ([exists] raises for a blocked path; [open] of a directory
    names the path as pathlib writes it). *)
Definition open_named (file_path : string) (n : node) : string + string :=
  match n with
  | File _ (Text text) => inr text
  | File _ (Unreadable reason) => inl reason
  | Dir _ _ =>
      inl ("[Errno 21] Is a directory: '" ++ normal_path file_path ++ "'")
  | Blocked _ reason => inl reason
  end.

(** *** find_duplicate_lines *)

(** [Counter(lines)] *)
Definition Counter (xs : list string) : counter :=
  fold_left (fun c x => counter_add x 1 c) xs [].

(** [sorted(items, key=lambda x: x[1], reverse=True)]: a stable sort, so
    items with the same count keep the order they had. *)
Fixpoint insert_desc (x : string * nat) (sorted : list (string * nat))
  : list (string * nat) :=
  match sorted with
  | [] => [x]
  | y :: rest =>
      if snd y <=? snd x then x :: sorted
      else y :: insert_desc x rest
  end.

Fixpoint sorted_desc (items : list (string * nat)) : list (string * nat) :=
  match items with
  | [] => []
  | x :: rest => insert_desc x (sorted_desc rest)
  end.

(** [[line.rstrip() for line in f if len(line.strip()) >= min_length]] *)
Definition candidate_lines (min_length : Z) (lines : list string) : list string :=
  map Str.rstrip
      (filter (fun line => (min_length <=? Z.of_nat (String.length (Str.strip line)))%Z)
              lines).

(** [{line: count for line, count in line_counts.items() if count > 1}] *)
Definition duplicates_of (line_counts : counter) : counter :=
  filter (fun kv => 1 <? snd kv) line_counts.

(** [f"({count}x) {line[:80]}..."] *)
Definition format_group (g : string * nat) : string :=
  "(" ++ Str.of_nat (snd g) ++ "x) " ++ Str.take 80 (fst g) ++ "...".

(** The list [result[:20]] for a file with the given text. *)
Definition duplicate_report (min_length : Z) (text : string) : list string :=
  let lines := candidate_lines min_length (Str.iter_lines text) in
  let duplicates := duplicates_of (Counter lines) in
  firstn 20 (map format_group (sorted_desc duplicates)).

Definition find_duplicate_lines (fs : filesystem) (file_path : string)
           (min_length : Z) : string :=
  match fs file_path with
  | None => "Error: File '" ++ file_path ++ "' not found"
  | Some n =>
      match open_named file_path n with
      | inl message => "Error finding duplicates: " ++ message
      | inr text =>
          let lines := candidate_lines min_length (Str.iter_lines text) in
          match duplicates_of (Counter lines) with
          | [] => "No duplicate lines found"
          | _ :: _ => Str.join Str.newline (duplicate_report min_length text)
          end
      end
  end.

(** *** extract_imports *)

(** [r'^(import |from .+ import )'] *)
Definition python_import : Re.regex :=
  Re.Cat Re.Bol
    (Re.Group 1
       (Re.Alt (Re.lit "import ")
          (Re.Cat (Re.lit "from ") (Re.Cat (Re.Plus Re.CAny) (Re.lit " import "))))).

(** [r'^(import |const .+ = require\(|var .+ = require\()'] *)
Definition js_import : Re.regex :=
  Re.Cat Re.Bol
    (Re.Group 1
       (Re.Alt (Re.lit "import ")
          (Re.Alt
             (Re.Cat (Re.lit "const ")
                (Re.Cat (Re.Plus Re.CAny) (Re.lit " = require(")))
             (Re.Cat (Re.lit "var ")
                (Re.Cat (Re.Plus Re.CAny) (Re.lit " = require(")))))).

Definition matches (r : Re.regex) (s : string) : bool :=
  match Re.re_match false r s with
  | Some _ => true
  | None => false
  end.

Fixpoint import_lines (lines : list string) (imports : list string) : list string :=
  match lines with
  | [] => imports
  | line :: rest =>
      if matches python_import (Str.strip line) then
        import_lines rest (imports ++ [Str.strip line])
      else if matches js_import (Str.strip line) then
        import_lines rest (imports ++ [Str.strip line])
      else import_lines rest imports
  end.

Definition extract_imports (fs : filesystem) (file_path : string) : string :=
  match fs file_path with
  | None => "Error: File '" ++ file_path ++ "' not found"
  | Some n =>
      match open_named file_path n with
      | inl message => "Error extracting imports: " ++ message
      | inr text =>
          match import_lines (Str.iter_lines text) [] with
          | [] => "No imports found"
          | imports => Str.join Str.newline imports
          end
      end
  end.

(** ** Results that report a failure *)

(** The tools report a failure as a text that starts with [Error]. *)
Definition is_error_result (s : string) : bool := String.prefix "Error" s.

(** What a search with a pattern that does not compile does to one entry:
    a selected, readable file is opened and its first line, when it has one,
    is read; that is where [re.search] raises. *)
Definition probe (extensions : option (list string)) (e : entry) : list event :=
  if is_file e && negb (filtered_out extensions e) then
    match open_entry e with
    | Some text =>
        Opened (e_path e)
          :: match Str.iter_lines text with
             | [] => []
             | _ :: _ => [ReadLine (e_path e) 1]
             end
    | None => []
    end
  else [].

(** ** The hits of a search, located *)

(** The specification's SearchHit, together with the position of its file
    in the walk. *)
Record hit := {
  h_index : nat;      (* position of the file in the walk *)
  h_path : string;
  h_line_num : nat;
  h_line : string     (* the line as it was read *)
}.

Definition show_hit (h : hit) : string :=
  format_hit (h_path h) (h_line_num h) (h_line h).

(** Order by position in the walk, then by line number. *)
Definition hit_before (a b : hit) : Prop :=
  h_index a < h_index b
  \/ (h_index a = h_index b /\ h_line_num a < h_line_num b).

Section Located.
Variable re : re_module.
Variable pattern : string.

(** The matching lines among [lines], numbered from [n], up to the line
    at which [re.search] raises. *)
Fixpoint line_hits (i : nat) (path : string) (n : nat) (lines : list string)
  : list hit :=
  match lines with
  | [] => []
  | line :: rest =>
      match re_search re pattern line with
      | None => []
      | Some true =>
          {| h_index := i; h_path := path; h_line_num := n; h_line := line |}
            :: line_hits i path (S n) rest
      | Some false => line_hits i path (S n) rest
      end
  end.

Definition file_hits (extensions : option (list string)) (i : nat) (e : entry)
  : list hit :=
  if is_file e && negb (filtered_out extensions e) then
    match open_entry e with
    | Some text => line_hits i (e_path e) 1 (Str.iter_lines text)
    | None => []
    end
  else [].

Fixpoint located (extensions : option (list string)) (i : nat)
         (entries : list entry) : list hit :=
  match entries with
  | [] => []
  | e :: rest => file_hits extensions i e ++ located extensions (S i) rest
  end.
End Located.

(** Where a located hit comes from: the file at its position in the walk
    (counted from [i0]) is a readable file with the hit's path, and the
    hit's line is the line with its number there. *)
Definition hit_from (i0 : nat) (entries : list entry) (h : hit) : Prop :=
  i0 <= h_index h
  /\ exists e text,
       nth_error entries (h_index h - i0) = Some e
       /\ e_path e = h_path h
       /\ is_file e = true
       /\ open_entry e = Some text
       /\ 1 <= h_line_num h
       /\ nth_error (Str.iter_lines text) (h_line_num h - 1) = Some (h_line h).

(** ** Order of the duplicate groups *)

Definition keys (c : counter) : list string := map fst c.

(** The position at which [x] first occurs in [xs]. *)
Fixpoint first_index (x : string) (xs : list string) : nat :=
  match xs with
  | [] => 0
  | y :: rest => if String.eqb x y then 0 else S (first_index x rest)
  end.

(** A relation between keys, read on the items of a counter. *)
Definition on_keys (Rk : string -> string -> Prop) (a b : string * nat) : Prop :=
  Rk (fst a) (fst b).

Definition first_before (lines : list string) (a b : string) : Prop :=
  first_index a lines < first_index b lines.

(** Count descending; for equal counts, the line that occurs first in the
    file comes first. *)
Definition group_before (lines : list string) (a b : string * nat) : Prop :=
  snd b < snd a
  \/ (snd a = snd b /\ first_before lines (fst a) (fst b)).

(** The groups behind the report: the first twenty entries of the sorted
    duplicates. *)
Definition duplicate_groups (min_length : Z) (text : string) : list (string * nat) :=
  firstn 20 (sorted_desc (duplicates_of
                            (Counter (candidate_lines min_length (Str.iter_lines text))))).

(** ** A tree without its files that have no dot in their name *)

Definition dotless (name : string) : bool := negb (Str.contains "." name).

Definition dotless_file (n : node) : bool :=
  match n with
  | File name _ => dotless name
  | Dir _ _ => false
  | Blocked _ _ => false
  end.

Definition dotless_entry (e : entry) : bool := is_file e && dotless (e_name e).

(** The same tree with every such file deleted, at every depth. *)
Fixpoint without_dotless (n : node) : node :=
  match n with
  | Dir name cs =>
      Dir name (filter (fun c => negb (dotless_file c)) (map without_dotless cs))
  | File _ _ => n
  | Blocked _ _ => n
  end.

Definition without_dotless_files (fs : filesystem) : filesystem :=
  fun p => option_map without_dotless (fs p).

(** ** Whitespace at the ends of a text *)

Fixpoint all_space (s : string) : bool :=
  match s with
  | EmptyString => true
  | String c s' => Str.isspace c && all_space s'
  end.

Definition starts_with_space (s : string) : bool :=
  match s with
  | EmptyString => false
  | String c _ => Str.isspace c
  end.

Fixpoint ends_with_space (s : string) : bool :=
  match s with
  | EmptyString => false
  | String c EmptyString => Str.isspace c
  | String _ s' => ends_with_space s'
  end.

(** [t] is [line] without the whitespace at both of its ends. *)
Definition trimmed_both (line t : string) : Prop :=
  exists lead trail,
    line = lead ++ t ++ trail
    /\ all_space lead = true /\ all_space trail = true
    /\ starts_with_space t = false /\ ends_with_space t = false.

(** [t] is [line] without the whitespace at its end only. *)
Definition trimmed_right (line t : string) : Prop :=
  exists trail,
    line = t ++ trail /\ all_space trail = true /\ ends_with_space t = false.

(** The events of the first entry of the walk that is a selected, readable
    file. *)
Fixpoint first_probe (extensions : option (list string)) (entries : list entry)
  : list event :=
  match entries with
  | [] => []
  | e :: rest =>
      match probe extensions e with
      | [] => first_probe extensions rest
      | events => events
      end
  end.

(** ** A small tree for the examples *)

Definition nl : string := Str.newline.

Definition a_py : string :=
  "import os" ++ nl ++ "    x = 1" ++ nl ++ "from foo import bar" ++ nl.

Definition b_cpp : string :=
  "// TODO: fix this" ++ nl ++ "int x;  " ++ nl ++ "int x;" ++ nl ++ "int    x;".

Definition demo_fs : filesystem := fun p =>
  if String.eqb p "proj" then
    Some (Dir "proj"
            [File "a.py" (Text a_py);
             Dir "sub" [File "b.cpp" (Text b_cpp);
                        File "README" (Text ("x marks" ++ nl))];
             File "c.md" (Text ("// TODO: fix this" ++ nl))])
  else if String.eqb p "proj/a.py" then Some (File "a.py" (Text a_py))
  else None.


(** A text of one line, with or without the newline at its end. *)
Definition one_line (line : string) (final_newline : bool) : string :=
  if final_newline then line ++ nl else line.

(** The three lines of the import example. *)
Definition three_lines (final_newline : bool) : string :=
  "import os" ++ nl ++ "    x = 1" ++ nl
    ++ one_line "from foo import bar" final_newline.

Definition notes_fs : filesystem := fun p =>
  if String.eqb p "notes.txt" then
    Some (File "notes.txt" (Text ("hello world!" ++ nl ++ "hello world!" ++ nl)))
  else None.

(** A pattern selector for the examples of [find_files]: a pattern that
    starts with a slash is refused, as pathlib refuses it; [*] selects
    everything; any other pattern is taken for a plain name. *)
Definition demo_glob (pattern : string) : string + (entry -> bool) :=
  match pattern with
  | String "/" _ => inl "Non-relative patterns are unsupported"
  | _ =>
      if String.eqb pattern "*" then inr (fun _ => true)
      else inr (fun e => String.eqb (e_name e) pattern)
  end.

(** A tree with an entry that cannot be examined, and a root that cannot. *)
Definition vault_fs : filesystem := fun p =>
  if String.eqb p "vault" then
    Some (Dir "vault"
            [File "a.py" (Text ("# TODO: first" ++ nl));
             Blocked "key.py" "[Errno 13] Permission denied: 'vault/key.py'";
             File "z.py" (Text ("# TODO: last" ++ nl))])
  else if String.eqb p "sealed/root" then
    Some (Blocked "root" "[Errno 13] Permission denied: 'sealed/root'")
  else None.

(** ** What a walk selects and reads *)

(** A file that passes the extension filter. *)
Definition selected (extensions : option (list string)) (e : entry) : bool :=
  is_file e && negb (filtered_out extensions e).

(** What a search with a pattern that compiles does to one entry: a
    selected, readable file is opened and each of its lines is read. *)
Definition full_read (extensions : option (list string)) (e : entry) : list event :=
  if selected extensions e then
    match open_entry e with
    | Some text =>
        Opened (e_path e)
          :: map (ReadLine (e_path e)) (seq 1 (List.length (Str.iter_lines text)))
    | None => []
    end
  else [].

(** The files a walk counts: selected and readable. *)
Definition counted (extensions : option (list string)) (entries : list entry)
  : list entry :=
  filter (fun e => selected extensions e
                   && match open_entry e with Some _ => true | None => false end)
         entries.

(** The number of lines of a readable file. *)
Definition entry_lines (e : entry) : nat :=
  match open_entry e with
  | Some text => List.length (Str.iter_lines text)
  | None => 0
  end.

(** [c[k]] of a [Counter]: zero for a key that is not there. *)
Fixpoint counter_get (k : string) (c : counter) : nat :=
  match c with
  | [] => 0
  | (k', v) :: c' => if String.eqb k k' then v else counter_get k c'
  end.

(** The entries whose extension key is [k]. *)
Definition keyed (k : string) (entries : list entry) : list entry :=
  filter (fun e => String.eqb (extension_key e) k) entries.

(** ** Shapes of the texts the source's patterns accept *)

(** [s] begins with [w], each character compared as a literal of a pattern
    is, with or without IGNORECASE. *)
Fixpoint starts_with (ignorecase : bool) (w s : string) : bool :=
  match w, s with
  | EmptyString, _ => true
  | String c w', String d s' =>
      Re.cset_mem ignorecase (Re.CLit c) d && starts_with ignorecase w' s'
  | String _ _, EmptyString => false
  end.

(** Every character of [a] is in the class. *)
Fixpoint all_in (ignorecase : bool) (cs : Re.cset) (a : string) : bool :=
  match a with
  | EmptyString => true
  | String c a' => Re.cset_mem ignorecase cs c && all_in ignorecase cs a'
  end.

(** [s] is [head], then at least one character and no newline, then [sep],
    then anything. *)
Definition between (head sep s : string) : Prop :=
  exists a b,
    s = head ++ a ++ sep ++ b /\ a <> "" /\ all_in false Re.CAny a = true.

(** The lines that [extract_imports] keeps, after stripping. *)
Definition import_shape (s : string) : Prop :=
  (exists rest, s = "import " ++ rest)
  \/ between "from " " import " s
  \/ between "const " " = require(" s
  \/ between "var " " = require(" s.

(** The test of the loop of [extract_imports] on a stripped line. *)
Definition is_import (s : string) : bool :=
  matches python_import s || matches js_import s.

(** Whether a match was found. *)
Definition succeeds (o : option Re.found) : bool :=
  match o with
  | Some _ => true
  | None => false
  end.

(** ** get_file_stats *)

(** [s.split()]: the runs of characters between whitespace. *)
Fixpoint split_ws (s : string) : list string :=
  match s with
  | EmptyString => []
  | String c s' =>
      if Str.isspace c then split_ws s'
      else match s' with
           | EmptyString => [String c EmptyString]
           | String d _ =>
               if Str.isspace d then String c EmptyString :: split_ws s'
               else match split_ws s' with
                    | w :: ws => String c w :: ws
                    | [] => [String c EmptyString]
                    end
           end
  end.

(** The [stats] dict that [get_file_stats] hands to [json.dumps]. *)
Record file_stats := {
  st_file : string;
  st_size_bytes : nat;
  st_lines : nat;
  st_words : nat;
  st_characters : nat;
  st_non_empty_lines : nat;
  st_extension : string
}.

(** [bool(l.strip())] *)
Definition non_blank (l : string) : bool :=
  match Str.strip l with
  | EmptyString => false
  | String _ _ => true
  end.

Section FileStats.
(** [path.stat().st_size], which the system answers. *)
Variable st_size : string -> nat.

(** The tool, up to [json.dumps]: an error text, or the [stats] dict. *)
Definition get_file_stats (fs : filesystem) (file_path : string)
  : string + file_stats :=
  match fs file_path with
  | None => inl ("Error: File '" ++ file_path ++ "' not found")
  | Some n =>
      match open_named file_path n with
      | inl message => inl ("Error getting file stats: " ++ message)
      | inr content =>
          let lines := Str.split "010" content in
          let words := split_ws content in
          inr {| st_file := normal_path file_path;
                 st_size_bytes := st_size file_path;
                 st_lines := List.length lines;
                 st_words := List.length words;
                 st_characters := String.length content;
                 st_non_empty_lines := List.length (filter non_blank lines);
                 st_extension := suffix (path_name file_path) |}
      end
  end.
End FileStats.

(** The number of newlines of a text. *)
Fixpoint count_newlines (s : string) : nat :=
  match s with
  | EmptyString => 0
  | String c s' => (if Ascii.eqb c "010" then 1 else 0) + count_newlines s'
  end.

(** Whether a text ends in a line that has no newline; [pending] says
    whether such a line has begun before the text. *)
Fixpoint open_tail (pending : bool) (s : string) : bool :=
  match s with
  | EmptyString => pending
  | String c s' => if Ascii.eqb c "010" then open_tail false s' else open_tail true s'
  end.

Definition unterminated (text : string) : bool := open_tail false text.

(** ** calculate *)

(** [set('0123456789+-*/.() ')] *)
Definition allowed_chars : string := "0123456789+-*/.() ".

(** [all(c in allowed_chars for c in expression)] *)
Fixpoint all_allowed (expression : string) : bool :=
  match expression with
  | EmptyString => true
  | String c rest => Str.contains c allowed_chars && all_allowed rest
  end.

Section Calculate.
(** [eval(expression)] followed by [str]: the text of the value, or the
    message of the exception it raises. *)
Variable py_eval : string -> string + string.

(** The tool, with the record of what was handed to [eval]. *)
Definition calculate_run (expression : string) : string * list string :=
  if negb (all_allowed expression)
  then ("Error: Expression contains invalid characters", [])
  else match py_eval expression with
       | inr result => (result, [expression])
       | inl message => ("Error calculating: " ++ message, [expression])
       end.

Definition calculate (expression : string) : string :=
  fst (calculate_run expression).
End Calculate.

(** ** Files that can be read *)

(** The path names a file that opens and reads. *)
Definition readable (fs : filesystem) (file_path : string) : bool :=
  match fs file_path with
  | Some (File _ (Text _)) => true
  | _ => false
  end.

(** ** Marker lines *)

Definition todo_kinds : list string := ["TODO"; "FIXME"; "NOTE"; "XXX"; "HACK"].

(** [line] holds a marker of kind [kind] with the raw message [message]:
    some spelling of the keyword in any case, a colon, whitespace, and then
    the message, which is not empty and has no newline. *)
Definition marker_line (line kind message : string) : Prop :=
  exists pre marker ws post,
    line = pre ++ marker ++ ":" ++ ws ++ message ++ post
    /\ Str.upper marker = kind
    /\ In kind todo_kinds
    /\ all_space ws = true
    /\ message <> ""
    /\ all_in true Re.CAny message = true.

(** A capital letter of ASCII. *)
Definition is_capital (c : ascii) : bool :=
  let n := nat_of_ascii c in (65 <=? n) && (n <=? 90).

Fixpoint all_capital (w : string) : bool :=
  match w with
  | EmptyString => true
  | String c w' => is_capital c && all_capital w'
  end.


(** ** Counting events *)

Definition is_opened (ev : event) : bool :=
  match ev with
  | Opened _ => true
  | ReadLine _ _ => false
  end.

Definition files_opened (events : list event) : nat :=
  List.length (filter is_opened events).

Definition lines_read (events : list event) : nat :=
  List.length (filter (fun ev => negb (is_opened ev)) events).

(** * Properties *)

(** ** Strings *)

Lemma append_nil_r (s : string) : s ++ "" = s.
Proof. induction s as [|c s IH]; simpl; [reflexivity | now rewrite IH]. Qed.

Lemma append_assoc (a b c : string) : (a ++ b) ++ c = a ++ b ++ c.
Proof. induction a as [|x a IH]; simpl; [reflexivity | now rewrite IH]. Qed.

Lemma take_drop (n : nat) (s : string) : Str.take n s ++ Str.drop n s = s.
Proof.
  revert s; induction n as [|n IH]; intros [|c s]; simpl; try reflexivity.
  now rewrite IH.
Qed.

Lemma take_length (n : nat) (s : string) :
  String.length (Str.take n s) = Nat.min n (String.length s).
Proof.
  revert s; induction n as [|n IH]; intros [|c s]; simpl; try reflexivity.
  now rewrite IH.
Qed.

(** ** Counters *)

Lemma counter_total_add (k : string) (n : nat) (c : counter) :
  counter_total (counter_add k n c) = counter_total c + n.
Proof.
  induction c as [|[k' v] c IH]; simpl.
  - lia.
  - destruct (String.eqb k k'); simpl; lia.
Qed.

Lemma count_visit_total (extensions : option (list string)) (acc : summary) (e : entry) :
  total_lines acc = counter_total (by_extension acc) ->
  total_lines (count_visit extensions acc e)
  = counter_total (by_extension (count_visit extensions acc e)).
Proof.
  intros Hacc. unfold count_visit.
  destruct (is_file e); [|exact Hacc].
  destruct (filtered_out extensions e); [exact Hacc|].
  destruct (open_entry e) as [text|]; [|exact Hacc].
  simpl. rewrite counter_total_add. lia.
Qed.

Lemma count_fold_total (extensions : option (list string)) (entries : list entry) :
  forall acc,
    total_lines acc = counter_total (by_extension acc) ->
    total_lines (fold_left (count_visit extensions) entries acc)
    = counter_total (by_extension (fold_left (count_visit extensions) entries acc)).
Proof.
  induction entries as [|e entries IH]; intros acc Hacc; simpl.
  - exact Hacc.
  - apply IH. now apply count_visit_total.
Qed.

(** C3. For every root and extension filter, the summary of
    [count_lines_of_code] has [total_lines] equal to the sum of the line
    counts in [by_extension]. *)
Theorem count_lines_total_is_sum
  (fs : filesystem) (directory : string) (file_extensions : option string) :
  total_lines (count_lines_of_code fs directory file_extensions)
  = counter_total (by_extension (count_lines_of_code fs directory file_extensions)).
Proof.
  unfold count_lines_of_code, count_entries.
  apply count_fold_total. reflexivity.
Qed.

(** ** A root that is not a directory *)

Lemma listing_not_dir (fs : filesystem) (directory : string) :
  is_dir fs directory = inr false -> listing fs directory = inr [].
Proof.
  unfold is_dir, listing.
  destruct (fs directory) as [[name c|name cs|name reason]|]; intros H;
    try reflexivity; discriminate.
Qed.

Lemma listing_blocked (fs : filesystem) (directory reason : string) :
  is_dir fs directory = inl reason -> listing fs directory = inl reason.
Proof.
  unfold is_dir, listing.
  destruct (fs directory) as [[name c|name cs|name why]|]; intros H;
    try discriminate. now injection H as ->.
Qed.

(** C2, as the code has it. None of the tree tools checks its root. For a
    root that pathlib finds missing or not a directory ([is_dir] answers
    [False]), [search_code], [count_lines_of_code] and [find_todos] return
    their ordinary empty result (the no-match text, a summary of zero files
    and zero lines, the no-TODO text), and [find_files] returns its
    no-files text whenever pathlib accepts the name pattern; none of these
    is an error result. Only when the check of the root itself raises
    (permission denied on the way to it, a name that is too long) do the
    tools answer with an error: the text of that exception, from their
    outer handler. *)
Theorem missing_root_gives_empty_results
  (re : re_module) (glob : string -> string + (entry -> bool))
  (fs : filesystem) (pattern directory : string) (file_extensions : option string) :
  (is_dir fs directory = inr false ->
   search_code re fs pattern directory file_extensions
     = "No matches found for pattern '" ++ pattern ++ "'"
   /\ is_error_result (search_code re fs pattern directory file_extensions) = false
   /\ count_lines_answer fs directory file_extensions = inr empty_summary
   /\ find_todos fs directory = "No TODOs/FIXMEs found"
   /\ (forall selects, glob pattern = inr selects ->
         find_files glob fs pattern directory
           = "No files found matching '" ++ pattern ++ "'"
         /\ is_error_result (find_files glob fs pattern directory) = false))
  /\ (forall reason,
         is_dir fs directory = inl reason ->
         search_code re fs pattern directory file_extensions
           = "Error searching code: " ++ reason
         /\ count_lines_answer fs directory file_extensions
            = inl ("Error counting lines: " ++ reason)
         /\ find_todos fs directory = "Error finding TODOs: " ++ reason
         /\ (forall selects, glob pattern = inr selects ->
               find_files glob fs pattern directory
                 = "Error finding files: " ++ reason)).
Proof.
  split.
  - intros Hroot. pose proof (listing_not_dir fs directory Hroot) as Hwalk.
    assert (Hsearch : search_code re fs pattern directory file_extensions
                      = "No matches found for pattern '" ++ pattern ++ "'").
    { unfold search_code, walk_error, search_run, search_entries, rglob.
      now rewrite Hwalk. }
    split; [exact Hsearch|].
    split; [rewrite Hsearch; reflexivity|].
    split; [unfold count_lines_answer, walk_error, count_lines_of_code,
              count_entries, rglob; now rewrite Hwalk|].
    split; [unfold find_todos, walk_error, todo_hits, rglob; now rewrite Hwalk|].
    intros selects Hglob.
    assert (Hfind : find_files glob fs pattern directory
                    = "No files found matching '" ++ pattern ++ "'").
    { unfold find_files. now rewrite Hglob, Hwalk. }
    split; [exact Hfind | rewrite Hfind; reflexivity].
  - intros reason Hroot. pose proof (listing_blocked fs directory reason Hroot) as Hwalk.
    split; [unfold search_code, walk_error; now rewrite Hwalk|].
    split; [unfold count_lines_answer, walk_error; now rewrite Hwalk|].
    split; [unfold find_todos, walk_error; now rewrite Hwalk|].
    intros selects Hglob. unfold find_files. now rewrite Hglob, Hwalk.
Qed.

Lemma missing_root_gives_empty_results_witness :
  is_dir demo_fs "nowhere" = inr false
  /\ search_code literal_re demo_fs "x" "nowhere" (Some "py")
     = "No matches found for pattern 'x'"
  /\ count_lines_answer demo_fs "nowhere" (Some "py") = inr empty_summary
  /\ find_todos demo_fs "nowhere" = "No TODOs/FIXMEs found"
  /\ find_files demo_glob demo_fs "*" "nowhere" = "No files found matching '*'"
  /\ is_dir vault_fs "sealed/root"
     = inl "[Errno 13] Permission denied: 'sealed/root'"
  /\ find_todos vault_fs "sealed/root"
     = "Error finding TODOs: [Errno 13] Permission denied: 'sealed/root'".
Proof.
  assert (Hroot : is_dir demo_fs "nowhere" = inr false) by reflexivity.
  assert (Hsealed : is_dir vault_fs "sealed/root"
                    = inl "[Errno 13] Permission denied: 'sealed/root'")
    by reflexivity.
  destruct (missing_root_gives_empty_results
              literal_re demo_glob demo_fs "x" "nowhere" (Some "py"))
    as [Hmissing _].
  destruct (Hmissing Hroot) as (Hs & _ & Hc & Ht & _).
  destruct (missing_root_gives_empty_results
              literal_re demo_glob demo_fs "*" "nowhere" None)
    as [Hmissing' _].
  destruct (Hmissing' Hroot) as (_ & _ & _ & _ & Hf).
  destruct (Hf (fun _ => true) eq_refl) as [Hf1 _].
  destruct (missing_root_gives_empty_results
              literal_re demo_glob vault_fs "x" "sealed/root" None)
    as [_ Hblocked].
  destruct (Hblocked _ Hsealed) as (_ & _ & Htodo & _).
  repeat split; assumption.
Defined.

(** C2 as the specification states it fails: on a root that does not exist
    (and on one that is a file) the tree tools answer with their ordinary
    empty result, not with an error. *)
Lemma missing_root_is_not_an_error :
  is_dir demo_fs "nowhere" = inr false
  /\ is_dir demo_fs "proj/a.py" = inr false
  /\ is_error_result (search_code literal_re demo_fs "x" "nowhere" None) = false
  /\ is_error_result (search_code literal_re demo_fs "x" "proj/a.py" None) = false
  /\ is_error_result (find_files demo_glob demo_fs "*" "nowhere") = false
  /\ count_lines_answer demo_fs "nowhere" None = inr empty_summary
  /\ is_error_result (find_todos demo_fs "nowhere") = false.
Proof. repeat split; reflexivity. Qed.

(** ** A pattern that does not compile *)

Section InvalidPattern.
Variable re : re_module.
Variable pattern : string.
Hypothesis Hbad : re_compile re pattern = None.

Lemma scan_lines_invalid (path : string) (n : nat) (lines : list string) (st : scan) :
  scan_lines re pattern path n lines st
  = match lines with
    | [] => st
    | _ :: _ => note (ReadLine path n) st
    end.
Proof.
  destruct lines as [|line rest]; simpl; [reflexivity|].
  unfold re_search. now rewrite Hbad.
Qed.

Lemma search_visit_invalid (extensions : option (list string)) (st : scan) (e : entry) :
  results (search_visit re pattern extensions st e) = results st
  /\ log (search_visit re pattern extensions st e)
     = (log st ++ probe extensions e)%list.
Proof.
  unfold search_visit, probe.
  destruct (is_file e); simpl; [|now rewrite app_nil_r].
  destruct (filtered_out extensions e); simpl; [now rewrite app_nil_r|].
  destruct (open_entry e) as [text|]; [|now rewrite app_nil_r].
  rewrite scan_lines_invalid.
  destruct (Str.iter_lines text); simpl; [easy|].
  now rewrite <- app_assoc.
Qed.

Lemma search_fold_invalid (extensions : option (list string)) (entries : list entry) :
  forall st,
    results (fold_left (search_visit re pattern extensions) entries st) = results st
    /\ log (fold_left (search_visit re pattern extensions) entries st)
       = (log st ++ flat_map (probe extensions) entries)%list.
Proof.
  induction entries as [|e entries IH]; intros st; simpl.
  - now rewrite app_nil_r.
  - destruct (IH (search_visit re pattern extensions st e)) as [Hr Hl].
    destruct (search_visit_invalid extensions st e) as [Hr1 Hl1].
    rewrite Hr, Hl, Hr1, Hl1. now rewrite <- app_assoc.
Qed.
End InvalidPattern.

Lemma first_probe_prefix (extensions : option (list string)) (entries : list entry) :
  exists rest,
    flat_map (probe extensions) entries
    = (first_probe extensions entries ++ rest)%list.
Proof.
  induction entries as [|e entries [rest IH]]; simpl.
  - now exists [].
  - destruct (probe extensions e) as [|ev evs]; simpl.
    + now exists rest.
    + now exists (flat_map (probe extensions) entries).
Qed.

(** C1, as the code has it. For every pattern that does not compile,
    [search_code] collects no hit at all, so no hit text is mixed into its
    answer; but the pattern is not checked before the walk: the walk starts,
    and the first selected, readable file that it gets through (short of an
    exception of pathlib, which ends the walk) is opened and its first line,
    when it has one, is read before the pattern is first tried. *)
Theorem invalid_pattern_no_hits_but_walks
  (re : re_module) (fs : filesystem) (pattern directory : string)
  (file_extensions : option string) :
  re_compile re pattern = None ->
  results (search_run re fs pattern directory file_extensions) = []
  /\ search_hits re fs pattern directory file_extensions = []
  /\ exists rest,
       log (search_run re fs pattern directory file_extensions)
       = (first_probe (parse_extensions file_extensions) (rglob fs directory)
            ++ rest)%list.
Proof.
  intros Hbad. unfold search_hits, search_run, search_entries.
  destruct (search_fold_invalid re pattern Hbad (parse_extensions file_extensions)
              (rglob fs directory) {| results := []; log := [] |}) as [Hr Hl].
  rewrite Hr, Hl. split; [reflexivity|]. split; [reflexivity|].
  apply first_probe_prefix.
Qed.

Lemma invalid_pattern_no_hits_but_walks_witness :
  re_compile literal_re "(" = None
  /\ search_hits literal_re demo_fs "(" "proj" (Some "py") = []
  /\ exists rest,
       log (search_run literal_re demo_fs "(" "proj" (Some "py"))
       = ([Opened "proj/a.py"; ReadLine "proj/a.py" 1] ++ rest)%list.
Proof.
  assert (Hbad : re_compile literal_re "(" = None) by reflexivity.
  destruct (invalid_pattern_no_hits_but_walks
              literal_re demo_fs "(" "proj" (Some "py") Hbad) as (_ & Hh & Hl).
  split; [exact Hbad|]. split; [exact Hh | exact Hl].
Defined.

(** C1 as the specification states it fails: with the pattern [(], which
    does not compile, a file of the tree is opened and read, and the answer
    is the no-match text, not an error. *)
Lemma invalid_pattern_walks_and_reports_no_match :
  re_compile literal_re "(" = None
  /\ search_code literal_re demo_fs "(" "proj" None
     = "No matches found for pattern '('"
  /\ is_error_result (search_code literal_re demo_fs "(" "proj" None) = false
  /\ In (Opened "proj/a.py") (log (search_run literal_re demo_fs "(" "proj" None))
  /\ In (ReadLine "proj/a.py" 1) (log (search_run literal_re demo_fs "(" "proj" None)).
Proof. repeat split; try reflexivity; simpl; tauto. Qed.

(** ** Stripping *)

Lemma lstrip_spec (s : string) :
  exists lead,
    s = lead ++ Str.lstrip s
    /\ all_space lead = true /\ starts_with_space (Str.lstrip s) = false.
Proof.
  induction s as [|c s (lead & Heq & Hlead & Hstart)]; simpl.
  - exists EmptyString. repeat split.
  - destruct (Str.isspace c) eqn:Hc.
    + exists (String c lead). simpl. rewrite Hc, Hlead, <- Heq. repeat split; assumption.
    + exists EmptyString. simpl. rewrite Hc. repeat split.
Qed.

Lemma rstrip_spec (s : string) : trimmed_right s (Str.rstrip s).
Proof.
  unfold trimmed_right.
  induction s as [|c s (trail & Heq & Htrail & Hend)]; simpl.
  - exists EmptyString. repeat split.
  - destruct (Str.rstrip s) as [|d r] eqn:Hr.
    + simpl in Heq. subst trail. destruct (Str.isspace c) eqn:Hc.
      * exists (String c s). simpl. rewrite Hc, Htrail. repeat split.
      * exists s. simpl. rewrite Hc. repeat split; assumption.
    + exists trail. simpl. simpl in Heq. rewrite <- Heq. repeat split; assumption.
Qed.

Lemma rstrip_keeps_start (s : string) :
  starts_with_space s = false -> starts_with_space (Str.rstrip s) = false.
Proof.
  destruct s as [|c s]; simpl; [reflexivity|]. intros Hc.
  destruct (Str.rstrip s); [rewrite Hc|]; simpl; exact Hc.
Qed.

Lemma strip_spec (line : string) : trimmed_both line (Str.strip line).
Proof.
  unfold trimmed_both, Str.strip.
  destruct (lstrip_spec line) as (lead & Hl & Hlead & Hstart).
  destruct (rstrip_spec (Str.lstrip line)) as (trail & Hr & Htrail & Hend).
  exists lead, trail. repeat split; try assumption.
  - rewrite <- Hr. exact Hl.
  - now apply rstrip_keeps_start.
Qed.

(** ** Sorted lists *)

Section SortedLists.
Context {A : Type} (R : A -> A -> Prop).

Lemma sorted_app (l1 l2 : list A) :
  StronglySorted R l1 -> StronglySorted R l2 ->
  (forall a b, In a l1 -> In b l2 -> R a b) ->
  StronglySorted R (l1 ++ l2).
Proof.
  induction l1 as [|x l1 IH]; simpl; intros H1 H2 Hcross; [exact H2|].
  apply StronglySorted_inv in H1. destruct H1 as [H1 Hx].
  constructor.
  - apply IH; auto.
  - apply Forall_app. split; [exact Hx|].
    apply Forall_forall. intros b Hb. apply Hcross; auto.
Qed.

Lemma Forall_firstn (P : A -> Prop) (n : nat) (l : list A) :
  Forall P l -> Forall P (firstn n l).
Proof.
  intros H. revert n. induction H as [|x l Hx Hl IH]; intros [|n]; simpl;
    constructor; auto.
Qed.

Lemma sorted_firstn (n : nat) (l : list A) :
  StronglySorted R l -> StronglySorted R (firstn n l).
Proof.
  revert l. induction n as [|n IH]; intros [|x l] H; simpl; try constructor.
  - apply IH. now apply StronglySorted_inv in H.
  - apply Forall_firstn. now apply StronglySorted_inv in H.
Qed.

Lemma sorted_filter (f : A -> bool) (l : list A) :
  StronglySorted R l -> StronglySorted R (filter f l).
Proof.
  induction 1 as [|x l Hl IH Hx]; simpl; [constructor|].
  destruct (f x); [|exact IH]. constructor; [exact IH|].
  apply Forall_forall. intros y Hy. apply filter_In in Hy.
  rewrite Forall_forall in Hx. apply Hx, Hy.
Qed.
End SortedLists.

(** ** The shape of the results of a search *)

Section SearchShape.
Variable re : re_module.
Variable pattern : string.

Lemma scan_lines_results (i : nat) (path : string) (lines : list string) :
  forall n st,
    results (scan_lines re pattern path n lines st)
    = (results st ++ map show_hit (line_hits re pattern i path n lines))%list.
Proof.
  induction lines as [|line rest IH]; intros n st; simpl.
  - now rewrite app_nil_r.
  - destruct (re_search re pattern line) as [[|]|]; simpl.
    + rewrite IH. simpl. now rewrite <- app_assoc.
    + now rewrite IH.
    + now rewrite app_nil_r.
Qed.

Lemma search_visit_results (extensions : option (list string)) (i : nat)
      (st : scan) (e : entry) :
  results (search_visit re pattern extensions st e)
  = (results st ++ map show_hit (file_hits re pattern extensions i e))%list.
Proof.
  unfold search_visit, file_hits.
  destruct (is_file e); simpl; [|now rewrite app_nil_r].
  destruct (filtered_out extensions e); simpl; [now rewrite app_nil_r|].
  destruct (open_entry e) as [text|]; simpl; [|now rewrite app_nil_r].
  now rewrite (scan_lines_results i).
Qed.

Lemma search_fold_results (extensions : option (list string)) (entries : list entry) :
  forall i st,
    results (fold_left (search_visit re pattern extensions) entries st)
    = (results st ++ map show_hit (located re pattern extensions i entries))%list.
Proof.
  induction entries as [|e entries IH]; intros i st; simpl.
  - now rewrite app_nil_r.
  - rewrite (IH (S i)), (search_visit_results extensions i).
    now rewrite map_app, app_assoc.
Qed.

(** The hits of one file carry its position and path, and ascending line
    numbers, each the number of the line it shows. *)
Lemma line_hits_facts (i : nat) (path : string) (lines : list string) :
  forall n,
    Forall (fun h => h_index h = i /\ h_path h = path /\ n <= h_line_num h
                     /\ nth_error lines (h_line_num h - n) = Some (h_line h))
           (line_hits re pattern i path n lines)
    /\ StronglySorted hit_before (line_hits re pattern i path n lines).
Proof.
  induction lines as [|line rest IH]; intros n; simpl.
  - split; constructor.
  - destruct (IH (S n)) as [Hall Hsorted].
    assert (Hrest : Forall (fun h => h_index h = i /\ h_path h = path /\ n <= h_line_num h
                              /\ nth_error (line :: rest) (h_line_num h - n) = Some (h_line h))
                           (line_hits re pattern i path (S n) rest)).
    { eapply Forall_impl; [|exact Hall]. intros h (Hi & Hp & Hn & Hnth).
      repeat split; try assumption; [lia|].
      replace (h_line_num h - n) with (S (h_line_num h - S n)) by lia. exact Hnth. }
    destruct (re_search re pattern line) as [[|]|].
    + split.
      * constructor; [|exact Hrest]. simpl. repeat split; try lia.
        now rewrite Nat.sub_diag.
      * constructor; [exact Hsorted|].
        eapply Forall_impl; [|exact Hall]. intros h (Hi & _ & Hn & _).
        right. simpl. split; [now rewrite Hi | lia].
    + split; assumption.
    + split; constructor.
Qed.

Lemma file_hits_facts (extensions : option (list string)) (i : nat) (e : entry) :
  Forall (fun h => h_index h = i /\ hit_from i [e] h)
         (file_hits re pattern extensions i e)
  /\ StronglySorted hit_before (file_hits re pattern extensions i e).
Proof.
  unfold file_hits.
  destruct (is_file e) eqn:Hfile; simpl; [|split; constructor].
  destruct (filtered_out extensions e); simpl; [split; constructor|].
  destruct (open_entry e) as [text|] eqn:Hopen; [|split; constructor].
  destruct (line_hits_facts i (e_path e) (Str.iter_lines text) 1) as [Hall Hsorted].
  split; [|exact Hsorted].
  eapply Forall_impl; [|exact Hall]. intros h (Hi & Hp & Hn & Hnth).
  split; [exact Hi|]. split; [lia|]. exists e, text.
  rewrite Hi, Nat.sub_diag. repeat split; auto.
Qed.

Lemma located_facts (extensions : option (list string)) (entries : list entry) :
  forall i,
    Forall (hit_from i entries) (located re pattern extensions i entries)
    /\ StronglySorted hit_before (located re pattern extensions i entries).
Proof.
  induction entries as [|e entries IH]; intros i; simpl.
  - split; constructor.
  - destruct (IH (S i)) as [Hall Hsorted].
    destruct (file_hits_facts extensions i e) as [Hfile Hfsorted].
    split.
    + apply Forall_app. split.
      * eapply Forall_impl; [|exact Hfile].
        intros h (Hi & Hle & e' & text & Hnth & Hrest).
        split; [exact Hle|]. exists e', text. split; [|exact Hrest].
        rewrite Hi, Nat.sub_diag in *. simpl in *. exact Hnth.
      * eapply Forall_impl; [|exact Hall].
        intros h (Hle & e' & text & Hnth & Hrest).
        split; [lia|]. exists e', text. split; [|exact Hrest].
        replace (h_index h - i) with (S (h_index h - S i)) by lia. exact Hnth.
    + apply sorted_app; [exact Hfsorted | exact Hsorted |].
      intros a b Ha Hb. rewrite Forall_forall in Hfile, Hall.
      destruct (Hfile a Ha) as [Hi _]. destruct (Hall b Hb) as [Hle _].
      left. lia.
Qed.

(** The hits returned are the first hundred located hits, shown. *)
Lemma search_hits_located (fs : filesystem) (directory : string)
      (file_extensions : option string) :
  search_hits re fs pattern directory file_extensions
  = map show_hit
        (firstn 100 (located re pattern (parse_extensions file_extensions) 0
                             (rglob fs directory))).
Proof.
  unfold search_hits, search_run, search_entries.
  rewrite (search_fold_results _ _ 0). simpl results. rewrite app_nil_l.
  apply firstn_map.
Qed.
End SearchShape.

(** C4. For every root, pattern and filter, [search_code] returns at most
    100 hits, and they are ordered by the position of their file in the walk
    and, within one file, by ascending line number. *)
Theorem search_hits_capped_and_ordered
  (re : re_module) (fs : filesystem) (pattern directory : string)
  (file_extensions : option string) :
  List.length (search_hits re fs pattern directory file_extensions) <= 100
  /\ exists hs : list hit,
       search_hits re fs pattern directory file_extensions = map show_hit hs
       /\ Forall (hit_from 0 (rglob fs directory)) hs
       /\ StronglySorted hit_before hs.
Proof.
  split.
  - unfold search_hits. apply firstn_le_length.
  - exists (firstn 100 (located re pattern (parse_extensions file_extensions) 0
                                (rglob fs directory))).
    destruct (located_facts re pattern (parse_extensions file_extensions)
                (rglob fs directory) 0) as [Hall Hsorted].
    split; [apply search_hits_located|].
    split; [now apply Forall_firstn | now apply sorted_firstn].
Qed.

(** C6, as the code has it. The text of every hit is its source line with
    the whitespace at both ends removed ([line.strip()]): leading whitespace
    goes as well as trailing whitespace. *)
Theorem hit_text_is_trimmed_at_both_ends
  (re : re_module) (fs : filesystem) (pattern directory : string)
  (file_extensions : option string) :
  Forall (fun r =>
            exists e text k line shown,
              In e (rglob fs directory)
              /\ open_entry e = Some text
              /\ nth_error (Str.iter_lines text) k = Some line
              /\ r = e_path e ++ ":" ++ Str.of_nat (S k) ++ ": " ++ shown
              /\ shown = Str.strip line
              /\ trimmed_both line shown)
         (search_hits re fs pattern directory file_extensions).
Proof.
  rewrite search_hits_located. apply Forall_map.
  destruct (located_facts re pattern (parse_extensions file_extensions)
              (rglob fs directory) 0) as [Hall _].
  apply Forall_firstn. eapply Forall_impl; [|exact Hall].
  intros h (_ & e & text & Hnth & Hpath & _ & Hopen & Hn & Hline).
  exists e, text, (h_line_num h - 1), (h_line h), (Str.strip (h_line h)).
  split; [eapply nth_error_In; exact Hnth|].
  split; [exact Hopen|]. split; [exact Hline|].
  split; [|split; [reflexivity | apply strip_spec]].
  unfold show_hit, format_hit. rewrite Hpath.
  replace (S (h_line_num h - 1)) with (h_line_num h) by lia. reflexivity.
Qed.

(** C6 as the specification states it fails: line 2 of [a.py] starts with
    four spaces, and the hit for it shows the line without them, which is
    not the line with only its trailing whitespace removed. *)
Lemma hit_text_loses_leading_whitespace :
  search_hits literal_re demo_fs "x" "proj" (Some "py") = ["proj/a.py:2: x = 1"]
  /\ nth_error (Str.iter_lines a_py) 1 = Some ("    x = 1" ++ nl)
  /\ Str.rstrip ("    x = 1" ++ nl) = "    x = 1"
  /\ Str.strip ("    x = 1" ++ nl) = "x = 1"
  /\ search_hits literal_re demo_fs "x" "proj" (Some "py")
     <> ["proj/a.py:2: " ++ Str.rstrip ("    x = 1" ++ nl)].
Proof. repeat split; try reflexivity. discriminate. Qed.

(** ** Counting the lines of one file *)

Lemma first_index_app_in (k : string) (l l' : list string) :
  In k l -> first_index k (l ++ l') = first_index k l.
Proof.
  induction l as [|y l IH]; simpl; [contradiction|]. intros Hin.
  destruct (String.eqb_spec k y) as [|Hne]; [reflexivity|].
  destruct Hin as [Heq|Hin]; [congruence | now rewrite IH].
Qed.

Lemma first_index_app_new (k : string) (l : list string) :
  ~ In k l -> first_index k (l ++ [k]) = List.length l.
Proof.
  induction l as [|y l IH]; simpl; intros Hnot.
  - now rewrite String.eqb_refl.
  - destruct (String.eqb_spec k y) as [Heq|Hne].
    + exfalso. apply Hnot. left. now symmetry.
    + rewrite IH; [reflexivity | tauto].
Qed.

Lemma first_index_lt (k : string) (l : list string) :
  In k l -> first_index k l < List.length l.
Proof.
  induction l as [|y l IH]; simpl; [contradiction|]. intros Hin.
  destruct (String.eqb_spec k y) as [|Hne]; [lia|].
  destruct Hin as [Heq|Hin]; [congruence|]. apply IH in Hin. lia.
Qed.

Lemma count_occ_snoc (l : list string) (x k : string) :
  count_occ string_dec (l ++ [x]) k
  = count_occ string_dec l k + (if string_dec x k then 1 else 0).
Proof.
  rewrite count_occ_app. simpl. now destruct (string_dec x k).
Qed.

Section CounterAdd.
Variable x : string.
Variable n : nat.

Lemma counter_add_keys_Forall (P : string -> Prop) (c : counter) :
  Forall (fun kv => P (fst kv)) c -> P x ->
  Forall (fun kv => P (fst kv)) (counter_add x n c).
Proof.
  intros Hc Hx. induction Hc as [|[k v] c Hk Hc IH]; simpl.
  - constructor; [exact Hx | constructor].
  - destruct (String.eqb x k); constructor; auto.
Qed.

Lemma counter_add_has_keys (c : counter) (k : string) :
  In k (keys c) \/ k = x -> In k (keys (counter_add x n c)).
Proof.
  induction c as [|[k' v] c IH]; simpl.
  - intros [[]|Heq]; auto.
  - destruct (String.eqb_spec x k') as [Heq|Hne]; simpl.
    + intros [[Hk|Hk]|Hk]; subst; auto.
    + intros [[Hk|Hk]|Hk]; auto.
Qed.

Lemma counter_add_sorted (Rk : string -> string -> Prop) (c : counter) :
  StronglySorted (on_keys Rk) c ->
  (~ In x (keys c) -> Forall (fun kv => Rk (fst kv) x) c) ->
  StronglySorted (on_keys Rk) (counter_add x n c).
Proof.
  induction 1 as [|[k v] c Hsorted IH Hhead]; intros Hnew; simpl.
  - repeat constructor.
  - destruct (String.eqb_spec x k) as [Heq|Hne].
    + constructor; [exact Hsorted | exact Hhead].
    + constructor.
      * apply IH. intros Hnot.
        assert (Hall : Forall (fun kv => Rk (fst kv) x) ((k, v) :: c)).
        { apply Hnew. simpl. intros [Hk|Hk]; [congruence | tauto]. }
        now inversion Hall.
      * apply (counter_add_keys_Forall (Rk k)); [exact Hhead|].
        destruct (in_dec string_dec x (keys c)) as [Hin|Hnot].
        -- unfold keys in Hin. apply in_map_iff in Hin.
           destruct Hin as ([k' v'] & Hk' & Hin). simpl in Hk'. subst k'.
           rewrite Forall_forall in Hhead. exact (Hhead _ Hin).
        -- assert (Hall : Forall (fun kv => Rk (fst kv) x) ((k, v) :: c)).
           { apply Hnew. simpl. intros [Hk|Hk]; [congruence | tauto]. }
           now inversion Hall.
Qed.
End CounterAdd.

Lemma sorted_keys_NoDup (Rk : string -> string -> Prop) (c : counter) :
  (forall k, ~ Rk k k) -> StronglySorted (on_keys Rk) c -> NoDup (keys c).
Proof.
  intros Hirr. induction 1 as [|[k v] c Hsorted IH Hhead]; simpl; constructor;
    [|exact IH].
  intros Hin. unfold keys in Hin. apply in_map_iff in Hin.
  destruct Hin as ([k' v'] & Hk' & Hin). simpl in Hk'. subst k'.
  rewrite Forall_forall in Hhead. exact (Hirr k (Hhead _ Hin)).
Qed.

(** Adding one more line keeps every count equal to the number of
    occurrences. *)
Lemma counter_add_counts (l : list string) (x : string) (c : counter) :
  NoDup (keys c) ->
  (~ In x (keys c) -> count_occ string_dec l x = 0) ->
  Forall (fun kv => snd kv = count_occ string_dec l (fst kv)) c ->
  Forall (fun kv => snd kv = count_occ string_dec (l ++ [x]) (fst kv))
         (counter_add x 1 c).
Proof.
  intros Hnodup Hnew Hc. induction Hc as [|[k v] c Hk Hc IH]; simpl.
  - constructor; [|constructor]. simpl. rewrite count_occ_snoc.
    rewrite Hnew by (simpl; tauto). now destruct (string_dec x x).
  - simpl in Hnodup. apply NoDup_cons_iff in Hnodup. destruct Hnodup as [Hfresh Hnodup].
    simpl in Hk. destruct (String.eqb_spec x k) as [Heq|Hne].
    + subst k. constructor.
      * simpl. rewrite count_occ_snoc, Hk. now destruct (string_dec x x).
      * apply Forall_forall. intros [k' v'] Hin. simpl.
        rewrite Forall_forall in Hc. pose proof (Hc _ Hin) as Hv. simpl in Hv.
        rewrite count_occ_snoc, <- Hv. destruct (string_dec x k') as [Heq|]; [|lia].
        subst k'. exfalso. apply Hfresh. unfold keys.
        apply in_map_iff. now exists (x, v').
    + constructor.
      * simpl. rewrite count_occ_snoc, Hk.
        destruct (string_dec x k); [congruence | lia].
      * apply IH; [exact Hnodup|]. intros Hnot. apply Hnew. simpl.
        intros [Hk'|Hk']; [congruence | tauto].
Qed.

Lemma first_before_extend (l l' : list string) (c : counter) :
  (forall k, In k (keys c) -> In k l) ->
  StronglySorted (on_keys (first_before l)) c ->
  StronglySorted (on_keys (first_before (l ++ l'))) c.
Proof.
  intros Hkeys Hsorted.
  induction Hsorted as [|kv c Hs IH Hhead]; constructor.
  - apply IH. intros k Hk. apply Hkeys. simpl. now right.
  - apply Forall_forall. intros kv' Hin. rewrite Forall_forall in Hhead.
    unfold on_keys, first_before. rewrite !first_index_app_in.
    + exact (Hhead _ Hin).
    + apply Hkeys. simpl. right. unfold keys. now apply in_map.
    + apply Hkeys. simpl. now left.
Qed.

(** What [Counter(lines)] holds: every line once, in the order of first
    occurrence, with the number of its occurrences. *)
Lemma Counter_facts (lines : list string) :
  StronglySorted (on_keys (first_before lines)) (Counter lines)
  /\ Forall (fun kv => snd kv = count_occ string_dec lines (fst kv)) (Counter lines)
  /\ (forall k, In k (keys (Counter lines)) <-> In k lines).
Proof.
  unfold Counter. induction lines as [|x l (Hsorted & Hcounts & Hkeys)] using rev_ind.
  - simpl. repeat split; try constructor; intros [].
  - rewrite fold_left_app. simpl.
    set (c := fold_left (fun c x => counter_add x 1 c) l []) in *.
    assert (Hsorted' : StronglySorted (on_keys (first_before (l ++ [x]))) c).
    { apply first_before_extend; [|exact Hsorted]. intros k. apply Hkeys. }
    split; [|split].
    + apply counter_add_sorted; [exact Hsorted'|].
      intros Hnew. apply Forall_forall. intros kv Hin.
      assert (Hk : In (fst kv) l) by (apply Hkeys; unfold keys; now apply in_map).
      assert (Hx : ~ In x l) by (intros Hx; apply Hnew, Hkeys, Hx).
      unfold first_before. rewrite (first_index_app_in _ _ _ Hk).
      rewrite (first_index_app_new _ _ Hx). now apply first_index_lt.
    + apply counter_add_counts; [| |exact Hcounts].
      * apply (sorted_keys_NoDup (first_before l)); [|exact Hsorted].
        unfold first_before. intros k. lia.
      * intros Hnew. apply count_occ_not_In. intros Hx. apply Hnew, Hkeys, Hx.
    + intros k. split.
      * intros Hin. apply in_or_app.
        destruct (string_dec k x) as [Heq|Hne]; [right; simpl; auto|left].
        apply Hkeys. clear - Hin Hne. induction c as [|[k' v] c IH]; simpl in *.
        -- destruct Hin as [Hk|[]]. congruence.
        -- destruct (String.eqb x k'); simpl in *; tauto.
      * intros Hin. apply counter_add_has_keys. apply in_app_or in Hin.
        destruct Hin as [Hin|[Hin|[]]]; [left; now apply Hkeys | right; auto].
Qed.

(** ** The stable sort by count *)

Lemma insert_desc_In (x y : string * nat) (l : list (string * nat)) :
  In y (insert_desc x l) <-> y = x \/ In y l.
Proof.
  induction l as [|z l IH]; simpl.
  - intuition.
  - destruct (snd z <=? snd x); simpl; [intuition|]. rewrite IH. intuition.
Qed.

Lemma sorted_desc_In (y : string * nat) (l : list (string * nat)) :
  In y (sorted_desc l) <-> In y l.
Proof.
  induction l as [|x l IH]; simpl; [tauto|].
  rewrite insert_desc_In, IH. intuition.
Qed.

Section StableSort.
Variable lines : list string.

(** [x] stood before every item of [l] and [l] is in order: inserting
    [x] before the first item whose count is not larger keeps the order. *)
Lemma insert_desc_sorted (x : string * nat) (l : list (string * nat)) :
  StronglySorted (group_before lines) l ->
  Forall (on_keys (first_before lines) x) l ->
  StronglySorted (group_before lines) (insert_desc x l).
Proof.
  induction 1 as [|y l Hsorted IH Hhead]; intros Hx; simpl.
  - repeat constructor.
  - inversion Hx as [|? ? Hxy Hxl]; subst.
    destruct (Nat.leb_spec (snd y) (snd x)) as [Hle|Hlt].
    + constructor; [constructor; assumption|].
      constructor.
      * unfold group_before. unfold on_keys in Hxy.
        destruct (Nat.eq_dec (snd y) (snd x)); [right; split; auto | left; lia].
      * rewrite Forall_forall in Hhead, Hxl. apply Forall_forall. intros z Hz.
        specialize (Hhead _ Hz). specialize (Hxl _ Hz).
        unfold group_before in *. unfold on_keys in Hxl.
        destruct (Nat.eq_dec (snd z) (snd x)); [right; split; auto | left].
        destruct Hhead as [Hzy|[Hzy _]]; lia.
    + constructor; [now apply IH|].
      apply Forall_forall. intros z Hz. apply -> insert_desc_In in Hz.
      destruct Hz as [Hz|Hz].
      * subst z. left. exact Hlt.
      * rewrite Forall_forall in Hhead. now apply Hhead.
Qed.

Lemma sorted_desc_sorted (items : list (string * nat)) :
  StronglySorted (on_keys (first_before lines)) items ->
  StronglySorted (group_before lines) (sorted_desc items).
Proof.
  induction 1 as [|x items Hsorted IH Hhead]; simpl; [constructor|].
  apply insert_desc_sorted; [exact IH|].
  apply Forall_forall. intros y Hy. apply -> sorted_desc_In in Hy.
  rewrite Forall_forall in Hhead. now apply Hhead.
Qed.
End StableSort.

(** The groups that [find_duplicate_lines] reports for a text. *)
Lemma duplicate_report_groups (min_length : Z) (text : string) :
  duplicate_report min_length text
  = map format_group (duplicate_groups min_length text)
  /\ Forall (fun g =>
               1 < snd g
               /\ snd g = count_occ string_dec
                            (candidate_lines min_length (Str.iter_lines text)) (fst g))
            (duplicate_groups min_length text)
  /\ StronglySorted
       (group_before (candidate_lines min_length (Str.iter_lines text)))
       (duplicate_groups min_length text).
Proof.
  destruct (Counter_facts (candidate_lines min_length (Str.iter_lines text)))
    as (Hsorted & Hcounts & _).
  unfold duplicate_groups. split; [|split].
  - unfold duplicate_report. apply firstn_map.
  - apply Forall_firstn. apply Forall_forall. intros g Hg.
    apply -> sorted_desc_In in Hg. unfold duplicates_of in Hg.
    apply filter_In in Hg. destruct Hg as [Hin Hmany].
    split; [now apply Nat.ltb_lt|].
    rewrite Forall_forall in Hcounts. now apply Hcounts.
  - apply sorted_firstn, sorted_desc_sorted. unfold duplicates_of.
    now apply sorted_filter.
Qed.

(** C5. For every file text and minimum length, [find_duplicate_lines]
    reports at most 20 groups; every group has a count above 1 (the number
    of times its line occurs among the lines considered); the groups are in
    order of descending count, and groups of equal count in the order in
    which their lines first occur. *)
Theorem duplicate_groups_capped_counted_ordered (min_length : Z) (text : string) :
  exists groups : list (string * nat),
    duplicate_report min_length text = map format_group groups
    /\ List.length (duplicate_report min_length text) <= 20
    /\ List.length groups <= 20
    /\ Forall (fun g =>
                 1 < snd g
                 /\ snd g = count_occ string_dec
                              (candidate_lines min_length (Str.iter_lines text)) (fst g))
              groups
    /\ StronglySorted
         (group_before (candidate_lines min_length (Str.iter_lines text))) groups.
Proof.
  destruct (duplicate_report_groups min_length text) as (Hshape & Hall & Hsorted).
  exists (duplicate_groups min_length text). split; [exact Hshape|].
  split; [unfold duplicate_report; apply firstn_le_length|].
  split; [unfold duplicate_groups; apply firstn_le_length|].
  split; assumption.
Qed.

(** C7, as the code has it. Each reported group shows the first 80
    characters of its line followed by the three dots, whether or not the
    line is longer than 80 characters: the dots are always there. *)
Theorem duplicate_text_always_marked (min_length : Z) (text : string) :
  Forall (fun r =>
            exists line count,
              r = "(" ++ Str.of_nat count ++ "x) " ++ Str.take 80 line ++ "..."
              /\ 1 < count
              /\ count = count_occ string_dec
                           (candidate_lines min_length (Str.iter_lines text)) line
              /\ String.length (Str.take 80 line) = Nat.min 80 (String.length line)
              /\ line = Str.take 80 line ++ Str.drop 80 line)
         (duplicate_report min_length text).
Proof.
  destruct (duplicate_report_groups min_length text) as (Hshape & Hall & _).
  rewrite Hshape. apply Forall_map. eapply Forall_impl; [|exact Hall].
  intros [line count] [Hmany Hcount]. exists line, count.
  cbn [fst snd] in Hmany, Hcount.
  split; [reflexivity|]. split; [exact Hmany|]. split; [exact Hcount|].
  split; [apply take_length | symmetry; apply take_drop].
Qed.

(** C7 as the specification states it fails: a line of 12 characters that
    occurs twice is shown with the three dots after it. *)
Lemma short_duplicate_is_marked_too :
  String.length "hello world!" = 12
  /\ find_duplicate_lines notes_fs "notes.txt" 10 = "(2x) hello world!...".
Proof. split; reflexivity. Qed.

(** ** Suffixes *)

Lemma rfind_absent (c : ascii) (s : string) :
  Str.contains c s = false -> Str.rfind c s = None.
Proof.
  induction s as [|d s IH]; simpl; [reflexivity|]. intros H.
  apply orb_false_iff in H. destruct H as [Hd Hs].
  now rewrite (IH Hs), Hd.
Qed.


Lemma drop_append (a b : string) : Str.drop (String.length a) (a ++ b) = b.
Proof. induction a as [|c a IH]; simpl; [now destruct b | exact IH]. Qed.



(** A name without a dot has no suffix. *)
Lemma suffix_of_dotless (name : string) :
  Str.contains "." name = false -> suffix name = "".
Proof. intros H. unfold suffix. now rewrite (rfind_absent _ _ H). Qed.

(** ** The marker example *)






(** ** The import example *)

(** C9. For a file whose lines are [import os], [    x = 1] and
    [from foo import bar], [extract_imports] returns exactly the two lines
    [import os] and [from foo import bar], in that order. *)
Theorem extract_imports_three_lines
  (fs : filesystem) (file_path name : string) (final_newline : bool) :
  fs file_path = Some (File name (Text (three_lines final_newline))) ->
  Str.iter_lines (three_lines true)
    = ["import os" ++ nl; "    x = 1" ++ nl; "from foo import bar" ++ nl]
  /\ import_lines (Str.iter_lines (three_lines final_newline)) []
     = ["import os"; "from foo import bar"]
  /\ extract_imports fs file_path = "import os" ++ nl ++ "from foo import bar".
Proof.
  intros Hfile. split; [reflexivity|].
  assert (Himports : import_lines (Str.iter_lines (three_lines final_newline)) []
                     = ["import os"; "from foo import bar"])
    by (destruct final_newline; reflexivity).
  split; [exact Himports|].
  unfold extract_imports. rewrite Hfile. cbn [open_named].
  rewrite Himports. reflexivity.
Qed.

Lemma extract_imports_three_lines_witness :
  demo_fs "proj/a.py" = Some (File "a.py" (Text (three_lines true)))
  /\ extract_imports demo_fs "proj/a.py" = "import os" ++ nl ++ "from foo import bar".
Proof.
  assert (Hfile : demo_fs "proj/a.py" = Some (File "a.py" (Text (three_lines true))))
    by reflexivity.
  split; [exact Hfile|].
  exact (proj2 (proj2 (extract_imports_three_lines demo_fs "proj/a.py" "a.py" true Hfile))).
Defined.

(** ** Files without a dot in their name, under a filter *)

Lemma entry_in_without_dotless (parent : string) (n : node) :
  entry_in parent (without_dotless n) = entry_in parent n.
Proof. now destruct n. Qed.

Lemma dotless_file_without_dotless (n : node) :
  dotless_file (without_dotless n) = dotless_file n.
Proof. now destruct n. Qed.

Lemma dotless_entry_in (parent : string) (n : node) :
  dotless_entry (entry_in parent n) = dotless_file n.
Proof. now destruct n. Qed.

Lemma children_without_dotless (here : string) (cs : list node) :
  Forall (fun c => forall parent,
              descend parent (without_dotless c)
              = filter (fun e => negb (dotless_entry e)) (descend parent c)) cs ->
  (map (entry_in here) (filter (fun c => negb (dotless_file c)) (map without_dotless cs))
   ++ flat_map (descend here)
               (filter (fun c => negb (dotless_file c)) (map without_dotless cs)))%list
  = filter (fun e => negb (dotless_entry e))
           (map (entry_in here) cs ++ flat_map (descend here) cs).
Proof.
  intros Hcs. rewrite filter_app. f_equal.
  - clear Hcs. induction cs as [|c cs IH]; simpl; [reflexivity|].
    rewrite dotless_entry_in, dotless_file_without_dotless.
    destruct (dotless_file c); simpl; [exact IH|].
    now rewrite entry_in_without_dotless, IH.
  - induction Hcs as [|c cs Hc Hcs IH]; simpl; [reflexivity|].
    rewrite filter_app, <- IH, dotless_file_without_dotless.
    destruct (dotless_file c) eqn:Hdot; simpl.
    + destruct c; [reflexivity | discriminate | discriminate].
    + f_equal. exact (Hc here).
Qed.

Lemma descend_without_dotless (n : node) :
  forall parent,
    descend parent (without_dotless n)
    = filter (fun e => negb (dotless_entry e)) (descend parent n).
Proof.
  induction n as [name c|name cs IH|name reason] using node_children_ind;
    intros parent.
  - reflexivity.
  - simpl. now apply children_without_dotless.
  - reflexivity.
Qed.

(** Deleting those files changes neither where a loop stops nor why. *)
Lemma visited_without_dotless (entries : list entry) :
  visited (filter (fun e => negb (dotless_entry e)) entries)
  = filter (fun e => negb (dotless_entry e)) (visited entries)
  /\ first_error (filter (fun e => negb (dotless_entry e)) entries)
     = first_error entries.
Proof.
  induction entries as [|e entries [IHv IHe]]; [split; reflexivity|].
  assert (Hkept : forall reason, is_file_error e = Some reason ->
                                 negb (dotless_entry e) = true).
  { unfold is_file_error, dotless_entry, is_file. intros reason.
    destruct (e_kind e); intros H; [discriminate H | discriminate H | reflexivity]. }
  cbn [filter visited first_error].
  destruct (negb (dotless_entry e)) eqn:Hkeep; cbn [visited first_error filter].
  - destruct (is_file_error e) as [reason|]; [split; reflexivity|].
    cbn [filter]. rewrite Hkeep, IHv, IHe. split; reflexivity.
  - destruct (is_file_error e) as [reason|] eqn:Herr.
    + pose proof (Hkept reason eq_refl) as Hyes. congruence.
    + cbn [filter]. rewrite Hkeep. split; assumption.
Qed.

Lemma listing_without_dotless (fs : filesystem) (directory : string) :
  listing (without_dotless_files fs) directory
  = match listing fs directory with
    | inr entries => inr (filter (fun e => negb (dotless_entry e)) entries)
    | inl reason => inl reason
    end.
Proof.
  unfold listing, without_dotless_files.
  destruct (fs directory) as [[name c|name cs|name reason]|]; simpl;
    try reflexivity.
  f_equal. apply children_without_dotless. apply Forall_forall.
  intros c _. apply descend_without_dotless.
Qed.

Lemma rglob_without_dotless (fs : filesystem) (directory : string) :
  rglob (without_dotless_files fs) directory
  = filter (fun e => negb (dotless_entry e)) (rglob fs directory).
Proof.
  unfold rglob. rewrite listing_without_dotless.
  destruct (listing fs directory) as [reason|entries]; [reflexivity|].
  apply visited_without_dotless.
Qed.

Lemma walk_error_without_dotless (fs : filesystem) (directory : string) :
  walk_error (without_dotless_files fs) directory = walk_error fs directory.
Proof.
  unfold walk_error. rewrite listing_without_dotless.
  destruct (listing fs directory) as [reason|entries]; [reflexivity|].
  apply visited_without_dotless.
Qed.

Lemma fold_left_skipping {S : Type} (f : S -> entry -> S) (skip : entry -> bool) :
  (forall st e, skip e = true -> f st e = st) ->
  forall entries st,
    fold_left f (filter (fun e => negb (skip e)) entries) st = fold_left f entries st.
Proof.
  intros Hskip. induction entries as [|e entries IH]; intros st; simpl; [reflexivity|].
  destruct (skip e) eqn:He; simpl.
  - now rewrite (Hskip st e He).
  - apply IH.
Qed.

Lemma mem_empty (exts : list string) :
  Forall (fun ext => ext <> "") exts -> Str.mem "" exts = false.
Proof.
  induction 1 as [|ext exts Hext _ IH]; simpl; [reflexivity|].
  rewrite IH. destruct ext; [congruence | reflexivity].
Qed.

(** With every entry of the filter non-empty, a file without a dot in its
    name is filtered out. *)
Lemma dotless_filtered_out (exts : list string) (e : entry) :
  exts <> [] -> Forall (fun ext => ext <> "") exts ->
  dotless_entry e = true -> filtered_out (Some exts) e = true.
Proof.
  intros Hsome Hall He. unfold dotless_entry in He.
  apply andb_true_iff in He. destruct He as [_ Hname].
  unfold dotless in Hname. apply negb_true_iff in Hname.
  unfold filtered_out. destruct exts as [|x xs]; [congruence|].
  rewrite (suffix_of_dotless _ Hname). cbn [Str.drop].
  now rewrite (mem_empty _ Hall).
Qed.

Lemma parse_extensions_nonempty (file_extensions : option string) (exts : list string) :
  parse_extensions file_extensions = Some exts -> exts <> [].
Proof.
  destruct file_extensions as [[|c s]|]; simpl; try discriminate.
  intros H. injection H as <-.
  destruct (Ascii.eqb c ","); [discriminate|].
  destruct (Str.split "," s); discriminate.
Qed.

(** An entry that is blank before stripping becomes an empty entry, and
    then a file without a dot passes the filter. *)
Example blank_entry_admits_dotless :
  parse_extensions (Some "py, ") = Some ["py"; ""]
  /\ filtered_out (parse_extensions (Some "py, "))
                  {| e_path := "proj/README"; e_name := "README";
                     e_kind := IsFile (Text "") |} = false.
Proof. split; reflexivity. Qed.

(** C10. Under a filter that is supplied and has only non-empty entries,
    a file whose name has no dot is always skipped by [search_code] and by
    [count_lines_of_code]: deleting every such file from the tree changes
    neither the hits, nor what is opened and read, nor the summary (files,
    lines, per-extension counts); without a filter such a file is counted
    under [no extension]. *)
Theorem filter_excludes_files_without_dot
  (re : re_module) (fs : filesystem) (pattern directory : string)
  (file_extensions : option string) (exts : list string) :
  parse_extensions file_extensions = Some exts ->
  Forall (fun ext => ext <> "") exts ->
  (forall e, dotless_entry e = true ->
             filtered_out (parse_extensions file_extensions) e = true
             /\ extension_key e = "no extension")
  /\ search_run re (without_dotless_files fs) pattern directory file_extensions
     = search_run re fs pattern directory file_extensions
  /\ search_code re (without_dotless_files fs) pattern directory file_extensions
     = search_code re fs pattern directory file_extensions
  /\ count_lines_of_code (without_dotless_files fs) directory file_extensions
     = count_lines_of_code fs directory file_extensions.
Proof.
  intros Hparse Hall.
  pose proof (parse_extensions_nonempty _ _ Hparse) as Hsome.
  assert (Hrun : search_run re (without_dotless_files fs) pattern directory file_extensions
                 = search_run re fs pattern directory file_extensions).
  { unfold search_run, search_entries. rewrite rglob_without_dotless, Hparse.
    apply fold_left_skipping. intros st e He. unfold search_visit.
    rewrite (dotless_filtered_out exts e Hsome Hall He).
    now destruct (is_file e). }
  split; [|split; [exact Hrun|split]].
  - intros e He. rewrite Hparse. split; [now apply dotless_filtered_out|].
    unfold dotless_entry in He. apply andb_true_iff in He. destruct He as [_ Hname].
    unfold dotless in Hname. apply negb_true_iff in Hname.
    unfold extension_key. now rewrite (suffix_of_dotless _ Hname).
  - unfold search_code, search_hits.
    now rewrite walk_error_without_dotless, Hrun.
  - unfold count_lines_of_code, count_entries. rewrite rglob_without_dotless, Hparse.
    apply fold_left_skipping. intros st e He. unfold count_visit.
    rewrite (dotless_filtered_out exts e Hsome Hall He).
    now destruct (is_file e).
Qed.

Lemma filter_excludes_files_without_dot_witness :
  parse_extensions (Some "py, cpp") = Some ["py"; "cpp"]
  /\ Forall (fun ext => ext <> "") ["py"; "cpp"]
  /\ search_code literal_re (without_dotless_files demo_fs) "x" "proj" (Some "py, cpp")
     = search_code literal_re demo_fs "x" "proj" (Some "py, cpp")
  /\ count_lines_of_code (without_dotless_files demo_fs) "proj" (Some "py, cpp")
     = count_lines_of_code demo_fs "proj" (Some "py, cpp").
Proof.
  assert (Hparse : parse_extensions (Some "py, cpp") = Some ["py"; "cpp"]) by reflexivity.
  assert (Hall : Forall (fun ext => ext <> "") ["py"; "cpp"])
    by (repeat constructor; discriminate).
  destruct (filter_excludes_files_without_dot
              literal_re demo_fs "x" "proj" (Some "py, cpp") ["py"; "cpp"] Hparse Hall)
    as (_ & _ & Hsearch & Hcount).
  repeat split; assumption.
Defined.

(** * Further properties *)

(** ** A search with a pattern that compiles *)

Section CompiledPattern.
Variable re : re_module.
Variable pattern : string.
Variable compiled : re_pattern re.
Hypothesis Hok : re_compile re pattern = Some compiled.

Lemma line_hits_compiled (i : nat) (path : string) (lines : list string) :
  forall n h,
    In h (line_hits re pattern i path n lines)
    <-> exists k line,
          nth_error lines k = Some line
          /\ re_found re compiled line = true
          /\ h = {| h_index := i; h_path := path;
                    h_line_num := n + k; h_line := line |}.
Proof.
  induction lines as [|line rest IH]; intros n h; simpl.
  - split; [intros [] | intros ([|k] & l & Hnth & _); discriminate].
  - unfold re_search. rewrite Hok.
    destruct (re_found re compiled line) eqn:Hline; simpl; rewrite ?IH.
    + split.
      * intros [Hh|(k & l & Hnth & Hl & Hh)].
        -- exists 0, line. rewrite Nat.add_0_r. now repeat split.
        -- exists (S k), l. rewrite <- plus_n_Sm. now repeat split.
      * intros ([|k] & l & Hnth & Hl & Hh); simpl in Hnth.
        -- left. injection Hnth as <-. now rewrite Nat.add_0_r in Hh.
        -- right. exists k, l. rewrite <- plus_n_Sm in Hh. now repeat split.
    + split.
      * intros (k & l & Hnth & Hl & Hh).
        exists (S k), l. rewrite <- plus_n_Sm. now repeat split.
      * intros ([|k] & l & Hnth & Hl & Hh); simpl in Hnth.
        -- injection Hnth as <-. congruence.
        -- exists k, l. rewrite <- plus_n_Sm in Hh. now repeat split.
Qed.

Lemma located_shown (extensions : option (list string)) (entries : list entry) :
  forall i r,
    In r (map show_hit (located re pattern extensions i entries))
    <-> exists e text k line,
          In e entries
          /\ selected extensions e = true
          /\ open_entry e = Some text
          /\ nth_error (Str.iter_lines text) k = Some line
          /\ re_found re compiled line = true
          /\ r = format_hit (e_path e) (S k) line.
Proof.
  induction entries as [|e entries IH]; intros i r; simpl.
  - split; [intros [] | intros (e & _ & _ & _ & [] & _)].
  - rewrite map_app, in_app_iff, IH. unfold file_hits. fold (selected extensions e).
    split.
    + intros [Hhere|(e' & text & k & line & Hin & Hrest)].
      * destruct (selected extensions e) eqn:Hsel; [|destruct Hhere].
        destruct (open_entry e) as [text|] eqn:Hopen; [|destruct Hhere].
        apply in_map_iff in Hhere. destruct Hhere as (h & Hr & Hh).
        apply line_hits_compiled in Hh. destruct Hh as (k & line & Hnth & Hl & Hh).
        exists e, text, k, line. subst h r. repeat split; auto.
      * exists e', text, k, line. split; [now right | exact Hrest].
    + intros (e' & text & k & line & [Heq|Hin] & Hsel & Hopen & Hnth & Hl & Hr).
      * left. subst e'. rewrite Hsel, Hopen. apply in_map_iff.
        exists {| h_index := i; h_path := e_path e;
                  h_line_num := 1 + k; h_line := line |}.
        split; [now subst r|]. apply line_hits_compiled. now exists k, line.
      * right. exists e', text, k, line. now repeat split.
Qed.

Lemma scan_lines_log_compiled (path : string) (lines : list string) :
  forall n st,
    log (scan_lines re pattern path n lines st)
    = (log st ++ map (ReadLine path) (seq n (List.length lines)))%list.
Proof.
  induction lines as [|line rest IH]; intros n st; simpl.
  - now rewrite app_nil_r.
  - unfold re_search. rewrite Hok.
    destruct (re_found re compiled line); rewrite IH; simpl;
      now rewrite <- app_assoc.
Qed.

Lemma search_visit_log_compiled (extensions : option (list string))
      (st : scan) (e : entry) :
  log (search_visit re pattern extensions st e)
  = (log st ++ full_read extensions e)%list.
Proof.
  unfold search_visit, full_read, selected.
  destruct (is_file e); simpl; [|now rewrite app_nil_r].
  destruct (filtered_out extensions e); simpl; [now rewrite app_nil_r|].
  destruct (open_entry e) as [text|]; [|now rewrite app_nil_r].
  rewrite scan_lines_log_compiled. simpl. now rewrite <- app_assoc.
Qed.

Lemma search_fold_log_compiled (extensions : option (list string))
      (entries : list entry) :
  forall st,
    log (fold_left (search_visit re pattern extensions) entries st)
    = (log st ++ flat_map (full_read extensions) entries)%list.
Proof.
  induction entries as [|e entries IH]; intros st; simpl.
  - now rewrite app_nil_r.
  - now rewrite IH, search_visit_log_compiled, <- app_assoc.
Qed.
End CompiledPattern.

Lemma results_matching_lines
  (re : re_module) (fs : filesystem) (pattern directory : string)
  (file_extensions : option string) (compiled : re_pattern re) (r : string) :
  re_compile re pattern = Some compiled ->
  In r (results (search_run re fs pattern directory file_extensions)) ->
  exists e text k line,
    In e (rglob fs directory)
    /\ selected (parse_extensions file_extensions) e = true
    /\ open_entry e = Some text
    /\ nth_error (Str.iter_lines text) k = Some line
    /\ re_found re compiled line = true
    /\ r = format_hit (e_path e) (S k) line.
Proof.
  intros Hok. unfold search_run, search_entries.
  rewrite (search_fold_results re pattern _ _ 0). simpl results. rewrite app_nil_l.
  now apply located_shown.
Qed.

(** X1. With a pattern that compiles, the results collected by
    [search_code] (before the cut at 100) are exactly the matching lines:
    a text is a result if and only if it is the formatted hit of a line
    that the pattern finds in a selected, readable file of the walk. *)
Theorem search_results_are_the_matching_lines
  (re : re_module) (fs : filesystem) (pattern directory : string)
  (file_extensions : option string) (compiled : re_pattern re) (r : string) :
  re_compile re pattern = Some compiled ->
  (In r (results (search_run re fs pattern directory file_extensions))
   <-> exists e text k line,
         In e (rglob fs directory)
         /\ selected (parse_extensions file_extensions) e = true
         /\ open_entry e = Some text
         /\ nth_error (Str.iter_lines text) k = Some line
         /\ re_found re compiled line = true
         /\ r = format_hit (e_path e) (S k) line).
Proof.
  intros Hok. unfold search_run, search_entries.
  rewrite (search_fold_results re pattern _ _ 0). simpl results. rewrite app_nil_l.
  now apply located_shown.
Qed.

Lemma search_results_are_the_matching_lines_witness :
  re_compile literal_re "x" = Some (Re.lit "x")
  /\ (In "proj/a.py:2: x = 1"
         (results (search_run literal_re demo_fs "x" "proj" (Some "py")))
      <-> exists e text k line,
            In e (rglob demo_fs "proj")
            /\ selected (parse_extensions (Some "py")) e = true
            /\ open_entry e = Some text
            /\ nth_error (Str.iter_lines text) k = Some line
            /\ re_found literal_re (Re.lit "x") line = true
            /\ "proj/a.py:2: x = 1" = format_hit (e_path e) (S k) line).
Proof.
  assert (Hok : re_compile literal_re "x" = Some (Re.lit "x")) by reflexivity.
  split; [exact Hok|].
  exact (search_results_are_the_matching_lines
           literal_re demo_fs "x" "proj" (Some "py") (Re.lit "x")
           "proj/a.py:2: x = 1" Hok).
Defined.

(** X2. With a pattern that compiles, when no line matches in any
    selected, readable file that the walk gets through (an empty tree, a
    filter that selects nothing, files that cannot be read), [search_code]
    answers with the no-match text if the walk ran to its end, and with the
    error text of the outer handler if pathlib raised during the walk. *)
Theorem search_answers_no_match_when_nothing_matches
  (re : re_module) (fs : filesystem) (pattern directory : string)
  (file_extensions : option string) (compiled : re_pattern re) :
  re_compile re pattern = Some compiled ->
  (forall e text line,
      In e (rglob fs directory) ->
      selected (parse_extensions file_extensions) e = true ->
      open_entry e = Some text ->
      In line (Str.iter_lines text) ->
      re_found re compiled line = false) ->
  search_code re fs pattern directory file_extensions
  = match walk_error fs directory with
    | Some reason => "Error searching code: " ++ reason
    | None => "No matches found for pattern '" ++ pattern ++ "'"
    end.
Proof.
  intros Hok Hnone. unfold search_code.
  destruct (walk_error fs directory) as [reason|]; [reflexivity|].
  destruct (results (search_run re fs pattern directory file_extensions))
    as [|r rs] eqn:Hres; [reflexivity|].
  assert (Hin : In r (results (search_run re fs pattern directory file_extensions)))
    by (rewrite Hres; now left).
  apply (results_matching_lines re fs pattern directory
           file_extensions compiled r Hok) in Hin.
  destruct Hin as (e & text & k & line & He & Hsel & Hopen & Hnth & Hfound & _).
  apply nth_error_In in Hnth.
  rewrite (Hnone e text line He Hsel Hopen Hnth) in Hfound. discriminate.
Qed.

Lemma search_answers_no_match_when_nothing_matches_witness :
  search_code literal_re demo_fs "zebra" "proj" None
  = "No matches found for pattern 'zebra'"
  /\ search_code literal_re vault_fs "zebra" "vault" None
     = "Error searching code: [Errno 13] Permission denied: 'vault/key.py'".
Proof.
  split.
  - rewrite (search_answers_no_match_when_nothing_matches
               literal_re demo_fs "zebra" "proj" None (Re.lit "zebra") eq_refl);
      [reflexivity|].
    intros e text line He Hsel Hopen Hline.
    simpl in He.
    repeat (destruct He as [<-|He]; [try discriminate Hsel; try discriminate Hopen|]);
      try contradiction;
      injection Hopen as <-; simpl in Hline;
      repeat (destruct Hline as [<-|Hline]; [reflexivity|]); contradiction.
  - rewrite (search_answers_no_match_when_nothing_matches
               literal_re vault_fs "zebra" "vault" None (Re.lit "zebra") eq_refl);
      [reflexivity|].
    intros e text line He Hsel Hopen Hline.
    simpl in He.
    repeat (destruct He as [<-|He]; [try discriminate Hsel; try discriminate Hopen|]);
      try contradiction;
      injection Hopen as <-; simpl in Hline;
      repeat (destruct Hline as [<-|Hline]; [reflexivity|]); contradiction.
Defined.

(** X3. With a pattern that compiles, [search_code] never stops on account
    of its hits: every selected, readable file that the walk gets through is
    opened and every one of its lines is read, in order, however many hits
    there are. The walk ends only with the listing or where pathlib raises
    (the check of the root, or [is_file] on an entry); what comes after that
    entry is not opened. *)
Theorem search_reads_every_line
  (re : re_module) (fs : filesystem) (pattern directory : string)
  (file_extensions : option string) (compiled : re_pattern re) :
  re_compile re pattern = Some compiled ->
  log (search_run re fs pattern directory file_extensions)
  = match listing fs directory with
    | inr entries =>
        flat_map (full_read (parse_extensions file_extensions)) (visited entries)
    | inl _ => []
    end.
Proof.
  intros Hok. unfold search_run, search_entries.
  rewrite (search_fold_log_compiled re pattern compiled Hok). unfold rglob.
  now destruct (listing fs directory).
Qed.

Lemma search_reads_every_line_witness :
  log (search_run literal_re demo_fs "x" "proj" (Some "md"))
  = [Opened "proj/c.md"; ReadLine "proj/c.md" 1]
  /\ log (search_run literal_re vault_fs "x" "vault" None)
     = [Opened "vault/a.py"; ReadLine "vault/a.py" 1].
Proof.
  rewrite (search_reads_every_line literal_re demo_fs "x" "proj" (Some "md")
             (Re.lit "x") eq_refl).
  rewrite (search_reads_every_line literal_re vault_fs "x" "vault" None
             (Re.lit "x") eq_refl).
  split; reflexivity.
Defined.

(** ** What the line count holds *)

Lemma counter_get_add (k x : string) (n : nat) (c : counter) :
  counter_get k (counter_add x n c)
  = counter_get k c + (if String.eqb k x then n else 0).
Proof.
  induction c as [|[k' v] c IH]; simpl.
  - destruct (String.eqb k x); lia.
  - destruct (String.eqb_spec x k') as [Hx|Hx]; simpl.
    + subst k'. destruct (String.eqb k x); lia.
    + destruct (String.eqb_spec k k') as [Hk|Hk].
      * subst k'. destruct (String.eqb_spec k x); [congruence | lia].
      * exact IH.
Qed.

Lemma counter_add_keys_inv (x : string) (n : nat) (c : counter) (k : string) :
  In k (keys (counter_add x n c)) -> In k (keys c) \/ k = x.
Proof.
  induction c as [|[k' v] c IH]; simpl.
  - intros [Hk|[]]. now right.
  - destruct (String.eqb x k'); simpl; intros [Hk|Hk]; auto.
    destruct (IH Hk); auto.
Qed.

Lemma counter_add_NoDup (x : string) (n : nat) (c : counter) :
  NoDup (keys c) -> NoDup (keys (counter_add x n c)).
Proof.
  induction c as [|[k v] c IH]; simpl; intros Hc.
  - repeat constructor. intros [].
  - apply NoDup_cons_iff in Hc. destruct Hc as [Hk Hc].
    destruct (String.eqb_spec x k) as [Hx|Hx]; simpl.
    + now constructor.
    + constructor; [|now apply IH].
      intros Hin. apply counter_add_keys_inv in Hin.
      destruct Hin as [Hin|Heq]; [tauto | congruence].
Qed.

Lemma counter_get_In (k : string) (v : nat) (c : counter) :
  NoDup (keys c) -> In (k, v) c -> counter_get k c = v.
Proof.
  induction c as [|[k' v'] c IH]; simpl; intros Hc Hin; [contradiction|].
  apply NoDup_cons_iff in Hc. destruct Hc as [Hk Hc].
  destruct Hin as [Heq|Hin].
  - injection Heq as -> ->. now rewrite String.eqb_refl.
  - destruct (String.eqb_spec k k') as [->|Hne]; [|now apply IH].
    exfalso. apply Hk. unfold keys. apply in_map_iff. now exists (k', v).
Qed.

(** One turn of the loop, by whether the entry is counted. *)
Lemma count_visit_counted (extensions : option (list string)) (acc : summary)
      (e : entry) (text : string) :
  selected extensions e = true -> open_entry e = Some text ->
  count_visit extensions acc e
  = {| total_files := total_files acc + 1;
       total_lines := total_lines acc + entry_lines e;
       by_extension := counter_add (extension_key e) (entry_lines e)
                                   (by_extension acc) |}.
Proof.
  unfold selected, count_visit, entry_lines. intros Hsel Hopen.
  apply andb_true_iff in Hsel. destruct Hsel as [Hfile Hkeep].
  apply negb_true_iff in Hkeep. now rewrite Hfile, Hkeep, Hopen.
Qed.

Lemma count_visit_skipped (extensions : option (list string)) (acc : summary)
      (e : entry) :
  selected extensions e
  && match open_entry e with Some _ => true | None => false end = false ->
  count_visit extensions acc e = acc.
Proof.
  unfold selected, count_visit.
  destruct (is_file e); simpl; [|reflexivity].
  destruct (filtered_out extensions e); simpl; [reflexivity|].
  destruct (open_entry e); [discriminate | reflexivity].
Qed.

Lemma count_fold_facts (extensions : option (list string)) (entries : list entry) :
  forall acc,
    let final := fold_left (count_visit extensions) entries acc in
    total_files final = total_files acc + List.length (counted extensions entries)
    /\ total_lines final
       = total_lines acc + list_sum (map entry_lines (counted extensions entries))
    /\ (NoDup (keys (by_extension acc)) -> NoDup (keys (by_extension final)))
    /\ (forall k,
           counter_get k (by_extension final)
           = counter_get k (by_extension acc)
             + list_sum (map entry_lines (keyed k (counted extensions entries))))
    /\ (forall k,
           In k (keys (by_extension final))
           <-> In k (keys (by_extension acc))
               \/ exists e, In e (counted extensions entries) /\ extension_key e = k).
Proof.
  induction entries as [|e entries IH]; intros acc; simpl.
  - repeat split; try lia; auto.
    + intros [H|(e & [] & _)]. exact H.
  - unfold counted. simpl. fold (counted extensions entries).
    destruct (selected extensions e
              && match open_entry e with Some _ => true | None => false end)
      eqn:Hcount.
    + apply andb_true_iff in Hcount. destruct Hcount as [Hsel Hopen].
      destruct (open_entry e) as [text|] eqn:Htext; [|discriminate].
      rewrite (count_visit_counted extensions acc e text Hsel Htext).
      destruct (IH {| total_files := total_files acc + 1;
                      total_lines := total_lines acc + entry_lines e;
                      by_extension := counter_add (extension_key e) (entry_lines e)
                                                  (by_extension acc) |})
        as (Hf & Hl & Hn & Hg & Hk).
      simpl in Hf, Hl, Hn, Hg, Hk.
      split; [simpl; lia|]. split; [simpl; lia|].
      split; [intros Hacc; now apply Hn, counter_add_NoDup|].
      split.
      * intros k. rewrite Hg, counter_get_add. unfold keyed. simpl.
        rewrite (String.eqb_sym k). destruct (String.eqb (extension_key e) k); simpl; lia.
      * intros k. rewrite Hk. split.
        -- intros [Hin|(e' & He' & Hkey)].
           ++ apply counter_add_keys_inv in Hin. destruct Hin as [Hin|Heq]; [now left|].
              right. exists e. split; [now left | now symmetry].
           ++ right. exists e'. split; [now right | exact Hkey].
        -- intros [Hin|(e' & [Heq|He'] & Hkey)].
           ++ left. apply counter_add_has_keys. now left.
           ++ left. apply counter_add_has_keys. right. subst e'. now symmetry.
           ++ right. now exists e'.
    + rewrite (count_visit_skipped extensions acc e Hcount). apply IH.
Qed.

Lemma by_extension_buckets_keys
  (fs : filesystem) (directory : string) (file_extensions : option string) (k : string) :
  In k (keys (by_extension (count_lines_of_code fs directory file_extensions)))
  <-> exists e,
      In e (counted (parse_extensions file_extensions) (rglob fs directory))
      /\ extension_key e = k.
Proof.
  unfold count_lines_of_code, count_entries.
  destruct (count_fold_facts (parse_extensions file_extensions) (rglob fs directory)
              {| total_files := 0; total_lines := 0; by_extension := [] |})
    as (_ & _ & _ & _ & Hk).
  simpl in Hk. rewrite Hk. split; [intros [[]|H]; exact H | intros H; now right].
Qed.

(** X4. The summary of [count_lines_of_code] counts exactly the files of
    the walk that pass the filter and can be opened: [total_files] is their
    number and [total_lines] the sum of their line counts; directories,
    filtered-out files and unreadable files add nothing. *)
Theorem count_lines_counts_selected_readable_files
  (fs : filesystem) (directory : string) (file_extensions : option string) :
  let files := counted (parse_extensions file_extensions) (rglob fs directory) in
  total_files (count_lines_of_code fs directory file_extensions) = List.length files
  /\ total_lines (count_lines_of_code fs directory file_extensions)
     = list_sum (map entry_lines files).
Proof.
  intros files. unfold count_lines_of_code, count_entries.
  destruct (count_fold_facts (parse_extensions file_extensions) (rglob fs directory)
              {| total_files := 0; total_lines := 0; by_extension := [] |})
    as (Hf & Hl & _).
  split; [exact Hf | exact Hl].
Qed.

(** X5. In the summary of [count_lines_of_code], [by_extension] has each
    key once; a key is there exactly when some counted file has that
    extension (or [no extension]); its value is the sum of the line counts of
    the counted files with that extension; and the empty string is never a
    key. *)
Theorem by_extension_buckets
  (fs : filesystem) (directory : string) (file_extensions : option string) :
  let files := counted (parse_extensions file_extensions) (rglob fs directory) in
  let buckets := by_extension (count_lines_of_code fs directory file_extensions) in
  NoDup (keys buckets)
  /\ (forall k, In k (keys buckets)
                <-> exists e, In e files /\ extension_key e = k)
  /\ Forall (fun kv => snd kv = list_sum (map entry_lines (keyed (fst kv) files)))
            buckets
  /\ ~ In "" (keys buckets).
Proof.
  intros files buckets. unfold buckets, files, count_lines_of_code, count_entries.
  destruct (count_fold_facts (parse_extensions file_extensions) (rglob fs directory)
              {| total_files := 0; total_lines := 0; by_extension := [] |})
    as (_ & _ & Hn & Hg & Hk).
  simpl in Hn, Hg, Hk.
  assert (Hnodup := Hn (NoDup_nil _)).
  assert (Hkeys : forall k,
             In k (keys (by_extension
                           (fold_left (count_visit (parse_extensions file_extensions))
                                      (rglob fs directory)
                                      {| total_files := 0; total_lines := 0;
                                         by_extension := [] |})))
             <-> exists e,
                 In e (counted (parse_extensions file_extensions) (rglob fs directory))
                 /\ extension_key e = k).
  { intros k. rewrite Hk. split; [intros [[]|H]; exact H | intros H; now right]. }
  split; [exact Hnodup|]. split; [exact Hkeys|]. split.
  - apply Forall_forall. intros [k v] Hin. simpl.
    rewrite <- (counter_get_In k v _ Hnodup Hin). apply Hg.
  - intros Hin. apply Hkeys in Hin. destruct Hin as (e & _ & Hkey).
    unfold extension_key in Hkey.
    destruct (Str.drop 1 (suffix (e_name e))); discriminate.
Qed.

Lemma mem_In (x : string) (xs : list string) : Str.mem x xs = true <-> In x xs.
Proof.
  unfold Str.mem. rewrite existsb_exists. split.
  - intros (y & Hy & Heq). apply String.eqb_eq in Heq. now subst y.
  - intros Hx. exists x. split; [exact Hx | apply String.eqb_refl].
Qed.

(** X6. Under a filter, [by_extension] only holds extensions that the
    filter lists; the key [no extension] can only appear when the filter has
    an empty entry. *)
Theorem by_extension_within_filter
  (fs : filesystem) (directory : string) (file_extensions : option string)
  (exts : list string) (k : string) :
  parse_extensions file_extensions = Some exts ->
  In k (keys (by_extension (count_lines_of_code fs directory file_extensions))) ->
  In k exts \/ (k = "no extension" /\ In "" exts).
Proof.
  intros Hparse Hin.
  destruct (by_extension_buckets_keys fs directory file_extensions k) as [Hkey _].
  destruct (Hkey Hin) as (e & He & Hk).
  unfold counted in He. apply filter_In in He. destruct He as [_ Hsel].
  apply andb_true_iff in Hsel. destruct Hsel as [Hsel _].
  unfold selected in Hsel. apply andb_true_iff in Hsel. destruct Hsel as [_ Hkeep].
  apply negb_true_iff in Hkeep. rewrite Hparse in Hkeep.
  pose proof (parse_extensions_nonempty _ _ Hparse) as Hsome.
  unfold filtered_out in Hkeep. destruct exts as [|x xs]; [congruence|].
  apply negb_false_iff, mem_In in Hkeep.
  unfold extension_key in Hk.
  destruct (Str.drop 1 (suffix (e_name e))) as [|c s]; subst k.
  - right. now split.
  - now left.
Qed.

Lemma by_extension_within_filter_witness :
  In "py" (keys (by_extension (count_lines_of_code demo_fs "proj" (Some "py, cpp"))))
  /\ (In "py" ["py"; "cpp"] \/ ("py" = "no extension" /\ In "" ["py"; "cpp"])).
Proof.
  assert (Hin : In "py" (keys (by_extension
                                 (count_lines_of_code demo_fs "proj" (Some "py, cpp")))))
    by (simpl; tauto).
  split; [exact Hin|].
  exact (by_extension_within_filter demo_fs "proj" (Some "py, cpp") ["py"; "cpp"] "py"
           eq_refl Hin).
Defined.

(** ** What the duplicate report holds *)

Lemma insert_desc_length (x : string * nat) (l : list (string * nat)) :
  List.length (insert_desc x l) = S (List.length l).
Proof.
  induction l as [|y l IH]; simpl; [reflexivity|].
  destruct (snd y <=? snd x); simpl; [reflexivity | now rewrite IH].
Qed.

Lemma sorted_desc_length (l : list (string * nat)) :
  List.length (sorted_desc l) = List.length l.
Proof.
  induction l as [|x l IH]; simpl; [reflexivity|].
  now rewrite insert_desc_length, IH.
Qed.

Lemma insert_desc_NoDup (x : string * nat) (l : list (string * nat)) :
  ~ In (fst x) (keys l) -> NoDup (keys l) -> NoDup (keys (insert_desc x l)).
Proof.
  induction l as [|y l IH]; simpl; intros Hx Hl.
  - repeat constructor. intros [].
  - destruct (snd y <=? snd x); simpl.
    + constructor; assumption.
    + apply NoDup_cons_iff in Hl. destruct Hl as [Hy Hl].
      constructor; [|apply IH; tauto].
      intros Hin. unfold keys in Hin. apply in_map_iff in Hin.
      destruct Hin as (z & Hz & Hin). apply -> insert_desc_In in Hin.
      destruct Hin as [->|Hin]; [apply Hx; left; now symmetry|].
      apply Hy. unfold keys. rewrite <- Hz. now apply in_map.
Qed.

Lemma sorted_desc_NoDup (l : list (string * nat)) :
  NoDup (keys l) -> NoDup (keys (sorted_desc l)).
Proof.
  induction l as [|x l IH]; simpl; intros Hl; [constructor|].
  apply NoDup_cons_iff in Hl. destruct Hl as [Hx Hl].
  apply insert_desc_NoDup; [|now apply IH].
  intros Hin. unfold keys in Hin. apply in_map_iff in Hin.
  destruct Hin as (z & Hz & Hin). apply -> sorted_desc_In in Hin.
  apply Hx. unfold keys. rewrite <- Hz. now apply in_map.
Qed.

Lemma filter_keys_NoDup (f : string * nat -> bool) (l : list (string * nat)) :
  NoDup (keys l) -> NoDup (keys (filter f l)).
Proof.
  induction l as [|x l IH]; simpl; intros Hl; [constructor|].
  apply NoDup_cons_iff in Hl. destruct Hl as [Hx Hl].
  destruct (f x); simpl; [|now apply IH].
  constructor; [|now apply IH].
  intros Hin. unfold keys in Hin. apply in_map_iff in Hin.
  destruct Hin as (z & Hz & Hin). apply filter_In in Hin.
  apply Hx. unfold keys. rewrite <- Hz. now apply in_map.
Qed.

Lemma firstn_keys_NoDup (n : nat) (l : list (string * nat)) :
  NoDup (keys l) -> NoDup (keys (firstn n l)).
Proof.
  revert l. induction n as [|n IH]; intros [|x l] Hl; simpl; try constructor.
  - apply NoDup_cons_iff in Hl. destruct Hl as [Hx _].
    intros Hin. unfold keys in Hin. apply in_map_iff in Hin.
    destruct Hin as (z & Hz & Hin).
    apply Hx. unfold keys. rewrite <- Hz. apply in_map.
    rewrite <- (firstn_skipn n l). apply in_or_app. now left.
  - apply IH. now apply NoDup_cons_iff in Hl.
Qed.

Lemma Counter_NoDup (lines : list string) : NoDup (keys (Counter lines)).
Proof.
  destruct (Counter_facts lines) as (Hsorted & _ & _).
  apply (sorted_keys_NoDup (first_before lines)); [|exact Hsorted].
  unfold first_before. intros k. lia.
Qed.

(** A line is among the duplicates exactly when it occurs more than once. *)
Lemma duplicates_of_Counter (lines : list string) (line : string) (count : nat) :
  In (line, count) (duplicates_of (Counter lines))
  <-> count = count_occ string_dec lines line /\ 1 < count.
Proof.
  destruct (Counter_facts lines) as (_ & Hcounts & Hkeys).
  unfold duplicates_of. rewrite filter_In. simpl. rewrite Nat.ltb_lt.
  split.
  - intros [Hin Hmany]. split; [|exact Hmany].
    rewrite Forall_forall in Hcounts. exact (Hcounts _ Hin).
  - intros [Hcount Hmany]. split; [|exact Hmany].
    assert (Hline : In line lines).
    { apply (count_occ_In string_dec). lia. }
    apply Hkeys in Hline. unfold keys in Hline. apply in_map_iff in Hline.
    destruct Hline as ([k v] & Hk & Hin). simpl in Hk. subst k.
    rewrite Forall_forall in Hcounts. pose proof (Hcounts _ Hin) as Hv.
    simpl in Hv. now rewrite Hcount, <- Hv.
Qed.

(** X7. No line is reported twice by [find_duplicate_lines]: the lines of
    the reported groups are pairwise distinct. *)
Theorem duplicate_groups_have_distinct_lines (min_length : Z) (text : string) :
  NoDup (map fst (duplicate_groups min_length text)).
Proof.
  unfold duplicate_groups.
  apply (firstn_keys_NoDup 20), sorted_desc_NoDup.
  unfold duplicates_of. apply filter_keys_NoDup, Counter_NoDup.
Qed.

(** X8. When at most 20 lines are duplicated, [find_duplicate_lines]
    reports every one of them: each line that occurs more than once among
    the lines considered has its group, with its number of occurrences, in
    the report. *)
Theorem duplicate_report_is_complete_below_cap
  (min_length : Z) (text line : string) :
  let lines := candidate_lines min_length (Str.iter_lines text) in
  List.length (duplicates_of (Counter lines)) <= 20 ->
  1 < count_occ string_dec lines line ->
  In (format_group (line, count_occ string_dec lines line))
     (duplicate_report min_length text).
Proof.
  intros lines Hfew Hmany.
  destruct (duplicate_report_groups min_length text) as (Hshape & _).
  rewrite Hshape. apply in_map. unfold duplicate_groups. fold lines.
  rewrite firstn_all2 by (now rewrite sorted_desc_length).
  apply sorted_desc_In, duplicates_of_Counter. now split.
Qed.

Lemma duplicate_report_is_complete_below_cap_witness :
  In "(2x) hello world!..."
     (duplicate_report 10 ("hello world!" ++ nl ++ "hello world!" ++ nl)).
Proof.
  apply (duplicate_report_is_complete_below_cap
           10 ("hello world!" ++ nl ++ "hello world!" ++ nl) "hello world!").
  - vm_compute. lia.
  - vm_compute. lia.
Defined.

(** X9. Every reported group comes from a line of the file whose text
    without the whitespace at both ends is at least [min_length] long; the
    group's line is that line without its trailing whitespace, so it never
    ends with whitespace. *)
Theorem duplicate_groups_come_from_long_lines (min_length : Z) (text : string) :
  Forall (fun g =>
            exists l,
              In l (Str.iter_lines text)
              /\ fst g = Str.rstrip l
              /\ (min_length <= Z.of_nat (String.length (Str.strip l)))%Z
              /\ ends_with_space (fst g) = false)
         (duplicate_groups min_length text).
Proof.
  destruct (duplicate_report_groups min_length text) as (_ & Hall & _).
  eapply Forall_impl; [|exact Hall]. intros [line count] [Hmany Hcount].
  cbn [fst snd] in *.
  assert (Hin : In line (candidate_lines min_length (Str.iter_lines text))).
  { apply (count_occ_In string_dec). lia. }
  unfold candidate_lines in Hin. apply in_map_iff in Hin.
  destruct Hin as (l & Hl & Hin). apply filter_In in Hin. destruct Hin as [Hin Hlong].
  exists l. split; [exact Hin|]. split; [now symmetry|].
  split; [now apply Z.leb_le|].
  subst line. destruct (rstrip_spec l) as (trail & _ & _ & Hend). exact Hend.
Qed.

Lemma join_cons_head (sep x : string) (xs : list string) :
  exists rest, Str.join sep (x :: xs) = x ++ rest.
Proof.
  destruct xs as [|y ys]; simpl.
  - exists "". now rewrite append_nil_r.
  - now exists (sep ++ Str.join sep (y :: ys)).
Qed.

(** X10. For a readable file, [find_duplicate_lines] answers with the
    no-duplicates text exactly when no line occurs more than once among
    the lines considered. *)
Theorem no_duplicates_text_iff_nothing_repeats
  (fs : filesystem) (file_path name text : string) (min_length : Z) :
  fs file_path = Some (File name (Text text)) ->
  (find_duplicate_lines fs file_path min_length = "No duplicate lines found"
   <-> forall line,
         count_occ string_dec (candidate_lines min_length (Str.iter_lines text)) line
         <= 1).
Proof.
  intros Hfile. unfold find_duplicate_lines. rewrite Hfile. cbn [open_named].
  set (lines := candidate_lines min_length (Str.iter_lines text)).
  destruct (duplicates_of (Counter lines)) as [|[l c] ds] eqn:Hdup.
  - split; [intros _ line | reflexivity].
    destruct (le_lt_dec (count_occ string_dec lines line) 1) as [Hle|Hlt]; [exact Hle|].
    assert (Hin : In (line, count_occ string_dec lines line) (duplicates_of (Counter lines)))
      by (apply duplicates_of_Counter; now split).
    rewrite Hdup in Hin. destruct Hin.
  - split.
    + intros Hanswer. exfalso.
      unfold duplicate_report in Hanswer. fold lines in Hanswer. rewrite Hdup in Hanswer.
      destruct (sorted_desc ((l, c) :: ds)) as [|g gs] eqn:Hsorted.
      * apply (f_equal (@List.length _)) in Hsorted.
        rewrite sorted_desc_length in Hsorted. discriminate.
      * change (firstn 20 (map format_group (g :: gs)))
          with (format_group g :: firstn 19 (map format_group gs)) in Hanswer.
        destruct (join_cons_head Str.newline (format_group g)
                    (firstn 19 (map format_group gs))) as [rest Hjoin].
        rewrite Hjoin in Hanswer. discriminate.
    + intros Hnone. exfalso.
      assert (Hin : In (l, c) (duplicates_of (Counter lines))) by (rewrite Hdup; now left).
      apply duplicates_of_Counter in Hin. destruct Hin as [Hc Hmany].
      specialize (Hnone l). lia.
Qed.

Lemma no_duplicates_text_iff_nothing_repeats_witness :
  find_duplicate_lines demo_fs "proj/a.py" 3 = "No duplicate lines found".
Proof.
  apply (no_duplicates_text_iff_nothing_repeats demo_fs "proj/a.py" "a.py" a_py 3 eq_refl).
  apply NoDup_count_occ. vm_compute.
  repeat constructor; simpl; intuition discriminate.
Defined.

(** ** The matcher *)

Section MatcherFacts.
Variable ic : bool.

(** A literal matches exactly at a text that begins with it. *)
Lemma run_lit (w : string) :
  forall pos s caps k,
    Re.run ic (Re.lit w) pos s caps k
    = if starts_with ic w s
      then k (pos + String.length w) (Str.drop (String.length w) s) caps
      else None.
Proof.
  induction w as [|c w IH]; intros pos s caps k;
    cbn [Re.lit Re.run starts_with String.length].
  - rewrite Nat.add_0_r. now destruct s.
  - destruct s as [|d s]; [reflexivity|].
    destruct (Re.cset_mem ic (Re.CLit c) d); cbn [andb Str.drop]; [|reflexivity].
    rewrite IH. now rewrite <- plus_n_Sm.
Qed.

(** A greedy repetition that succeeds has consumed some run of characters
    of the class, and the rest of the pattern matched after it. *)
Lemma repeat_cset_sound (cs : Re.cset) (s : string) :
  forall pos k m,
    Re.repeat_cset ic cs pos s k = Some m ->
    exists a b,
      s = a ++ b /\ all_in ic cs a = true
      /\ k (pos + String.length a) b = Some m.
Proof.
  induction s as [|c s IH]; intros pos k m; simpl.
  - intros Hk. exists "", "". rewrite Nat.add_0_r. now repeat split.
  - destruct (Re.cset_mem ic cs c) eqn:Hc.
    + destruct (Re.repeat_cset ic cs (S pos) s k) as [m'|] eqn:Hrep.
      * intros Hm. injection Hm as <-.
        destruct (IH _ _ _ Hrep) as (a & b & Hs & Ha & Hk).
        exists (String c a), b. simpl. rewrite Hc, Ha, <- plus_n_Sm.
        subst s. now repeat split.
      * intros Hk. exists "", (String c s). rewrite Nat.add_0_r. now repeat split.
    + intros Hk. exists "", (String c s). rewrite Nat.add_0_r. now repeat split.
Qed.

(** Whenever the rest of the pattern can match after some run of
    characters of the class, the repetition succeeds. *)
Lemma repeat_cset_complete (cs : Re.cset) (a : string) :
  forall b pos k,
    all_in ic cs a = true ->
    succeeds (k (pos + String.length a) b) = true ->
    succeeds (Re.repeat_cset ic cs pos (a ++ b) k) = true.
Proof.
  induction a as [|c a IH]; intros b pos k; simpl.
  - rewrite Nat.add_0_r. intros _ Hk. destruct b as [|d b]; simpl; [exact Hk|].
    destruct (Re.cset_mem ic cs d); [|exact Hk].
    destruct (Re.repeat_cset ic cs (S pos) b k); [reflexivity | exact Hk].
  - intros Hall Hk. apply andb_true_iff in Hall. destruct Hall as [Hc Ha].
    rewrite Hc. rewrite <- plus_n_Sm in Hk.
    specialize (IH b (S pos) k Ha Hk).
    now destruct (Re.repeat_cset ic cs (S pos) (a ++ b) k).
Qed.

Lemma run_plus_sound (cs : Re.cset) (pos : nat) (s : string) (caps : Re.captures)
      (k : nat -> string -> Re.captures -> option Re.found) (m : Re.found) :
  Re.run ic (Re.Plus cs) pos s caps k = Some m ->
  exists a b,
    s = a ++ b /\ a <> "" /\ all_in ic cs a = true
    /\ k (pos + String.length a) b caps = Some m.
Proof.
  simpl. destruct s as [|c s]; [discriminate|].
  destruct (Re.cset_mem ic cs c) eqn:Hc; [|discriminate].
  intros Hrep. apply repeat_cset_sound in Hrep.
  destruct Hrep as (a & b & Hs & Ha & Hk).
  exists (String c a), b. simpl. rewrite Hc, Ha, <- plus_n_Sm. subst s.
  repeat split; [discriminate | exact Hk].
Qed.

Lemma run_plus_complete (cs : Re.cset) (pos : nat) (a b : string) (caps : Re.captures)
      (k : nat -> string -> Re.captures -> option Re.found) :
  a <> "" -> all_in ic cs a = true ->
  succeeds (k (pos + String.length a) b caps) = true ->
  succeeds (Re.run ic (Re.Plus cs) pos (a ++ b) caps k) = true.
Proof.
  destruct a as [|c a]; [congruence|]. intros _ Hall Hk. simpl in *.
  apply andb_true_iff in Hall. destruct Hall as [Hc Ha]. rewrite Hc.
  rewrite <- plus_n_Sm in Hk.
  now apply (repeat_cset_complete cs a b (S pos) (fun p t => k p t caps)).
Qed.
End MatcherFacts.

(** Without IGNORECASE, beginning with [w] is having [w] as a prefix. *)
Lemma starts_with_exact (w s : string) :
  starts_with false w s = true <-> exists rest, s = w ++ rest.
Proof.
  revert s. induction w as [|c w IH]; intros s; simpl.
  - split; [intros _; now exists s | reflexivity].
  - destruct s as [|d s].
    + split; [discriminate | intros [rest Hrest]; discriminate].
    + rewrite andb_true_iff, IH. split.
      * intros [Hd [rest ->]]. apply Ascii.eqb_eq in Hd. subst d. now exists rest.
      * intros [rest Hrest]. injection Hrest as -> ->.
        split; [apply Ascii.eqb_refl | now exists rest].
Qed.

Lemma run_cat (ic : bool) (r1 r2 : Re.regex) (pos : nat) (s : string)
      (caps : Re.captures) (k : nat -> string -> Re.captures -> option Re.found) :
  Re.run ic (Re.Cat r1 r2) pos s caps k
  = Re.run ic r1 pos s caps (fun pos1 s1 caps1 => Re.run ic r2 pos1 s1 caps1 k).
Proof. reflexivity. Qed.

Lemma run_bol (ic : bool) (s : string) (caps : Re.captures)
      (k : nat -> string -> Re.captures -> option Re.found) :
  Re.run ic Re.Bol 0 s caps k = k 0 s caps.
Proof. reflexivity. Qed.

Lemma run_group (ic : bool) (n : nat) (r : Re.regex) (pos : nat) (s : string)
      (caps : Re.captures) (k : nat -> string -> Re.captures -> option Re.found) :
  Re.run ic (Re.Group n r) pos s caps k
  = Re.run ic r pos s caps
           (fun pos1 s1 caps1 => k pos1 s1 ((n, Str.take (pos1 - pos) s) :: caps1)).
Proof. reflexivity. Qed.

(** A pattern [head .+ sep], in a group at the start of the text, followed
    by nothing that can fail. *)
Lemma head_any_sep_matches (head sep s : string) (caps : Re.captures)
      (k : nat -> string -> Re.captures -> option Re.found) :
  (forall p t c, succeeds (k p t c) = true) ->
  succeeds (Re.run false
              (Re.Cat (Re.lit head) (Re.Cat (Re.Plus Re.CAny) (Re.lit sep)))
              0 s caps k) = true
  <-> between head sep s.
Proof.
  intros Htotal. rewrite run_cat, run_lit. unfold between. split.
  - destruct (starts_with false head s) eqn:Hhead; [|intros H; discriminate H].
    apply starts_with_exact in Hhead. destruct Hhead as [rest ->].
    rewrite drop_append, run_cat.
    destruct (Re.run false (Re.Plus Re.CAny) (0 + String.length head) rest caps
                (fun pos1 s1 caps1 => Re.run false (Re.lit sep) pos1 s1 caps1 k))
      as [m|] eqn:Hrun; [|intros H; discriminate H].
    intros _. apply run_plus_sound in Hrun.
    destruct Hrun as (a & b & -> & Hne & Hall & Hk).
    rewrite run_lit in Hk.
    destruct (starts_with false sep b) eqn:Hsep; [|discriminate].
    apply starts_with_exact in Hsep. destruct Hsep as [tail ->].
    exists a, tail. now repeat split.
  - intros (a & b & -> & Hne & Hall).
    rewrite (proj2 (starts_with_exact head (head ++ a ++ sep ++ b)))
      by (now exists (a ++ sep ++ b)).
    rewrite drop_append, run_cat.
    apply (run_plus_complete false Re.CAny _ a (sep ++ b)); [exact Hne | exact Hall|].
    rewrite run_lit.
    rewrite (proj2 (starts_with_exact sep (sep ++ b))) by (now exists b).
    apply Htotal.
Qed.

Lemma lit_matches (w s : string) (caps : Re.captures)
      (k : nat -> string -> Re.captures -> option Re.found) :
  (forall p t c, succeeds (k p t c) = true) ->
  succeeds (Re.run false (Re.lit w) 0 s caps k) = true
  <-> exists rest, s = w ++ rest.
Proof.
  intros Htotal. rewrite run_lit, <- starts_with_exact.
  destruct (starts_with false w s); [|split; intros H; discriminate H].
  split; [reflexivity | intros _; apply Htotal].
Qed.

Lemma succeeds_alt (ic : bool) (r1 r2 : Re.regex) (pos : nat) (s : string)
      (caps : Re.captures) (k : nat -> string -> Re.captures -> option Re.found) :
  succeeds (Re.run ic (Re.Alt r1 r2) pos s caps k)
  = succeeds (Re.run ic r1 pos s caps k) || succeeds (Re.run ic r2 pos s caps k).
Proof. simpl. now destruct (Re.run ic r1 pos s caps k). Qed.

Lemma matches_python_import (s : string) :
  matches python_import s = true
  <-> (exists rest, s = "import " ++ rest) \/ between "from " " import " s.
Proof.
  unfold matches, Re.re_match, python_import.
  change (match ?o with Some _ => true | None => false end) with (succeeds o).
  rewrite run_cat, run_bol, run_group, succeeds_alt, orb_true_iff.
  rewrite lit_matches by reflexivity.
  rewrite head_any_sep_matches by reflexivity. reflexivity.
Qed.

Lemma matches_js_import (s : string) :
  matches js_import s = true
  <-> (exists rest, s = "import " ++ rest)
      \/ between "const " " = require(" s
      \/ between "var " " = require(" s.
Proof.
  unfold matches, Re.re_match, js_import.
  change (match ?o with Some _ => true | None => false end) with (succeeds o).
  rewrite run_cat, run_bol, run_group, !succeeds_alt, !orb_true_iff.
  rewrite lit_matches by reflexivity.
  rewrite !head_any_sep_matches by reflexivity. reflexivity.
Qed.

Lemma is_import_shape (s : string) : is_import s = true <-> import_shape s.
Proof.
  unfold is_import, import_shape.
  rewrite orb_true_iff, matches_python_import, matches_js_import. tauto.
Qed.

Lemma import_lines_filter (lines : list string) :
  forall imports,
    import_lines lines imports
    = (imports ++ filter is_import (map Str.strip lines))%list.
Proof.
  induction lines as [|line rest IH]; intros imports; simpl.
  - now rewrite app_nil_r.
  - unfold is_import at 1.
    destruct (matches python_import (Str.strip line)); simpl.
    + now rewrite IH, <- app_assoc.
    + destruct (matches js_import (Str.strip line)); rewrite IH;
        [now rewrite <- app_assoc | reflexivity].
Qed.

(** X11. For a readable file, [extract_imports] keeps, in file order and
    without dropping repeats, exactly the stripped lines of one of these
    shapes: [import ...]; [from X import ...]; [const X = require(...];
    [var X = require(...] (X at least one character, none a newline). *)
Theorem extract_imports_keeps_import_shaped_lines (text : string) :
  exists keep : string -> bool,
    import_lines (Str.iter_lines text) []
    = filter keep (map Str.strip (Str.iter_lines text))
    /\ forall s, keep s = true <-> import_shape s.
Proof.
  exists is_import. split.
  - now rewrite import_lines_filter.
  - apply is_import_shape.
Qed.

(** ** Errors of the single-file tools *)

Lemma import_shape_not_error (x rest : string) :
  import_shape x -> is_error_result (x ++ rest) = false.
Proof.
  intros [[r ->]|[(a & b & -> & _)|[(a & b & -> & _)|(a & b & -> & _)]]];
    reflexivity.
Qed.

(** X12. [find_duplicate_lines] and [extract_imports] answer with an error
    text exactly when the path does not name a file that can be opened and
    read (it is missing, a directory, or unreadable); for a readable file
    their answer never starts with [Error]. *)
Theorem single_file_tools_fail_iff_unreadable
  (fs : filesystem) (file_path : string) (min_length : Z) :
  is_error_result (find_duplicate_lines fs file_path min_length)
  = negb (readable fs file_path)
  /\ is_error_result (extract_imports fs file_path) = negb (readable fs file_path).
Proof.
  unfold find_duplicate_lines, extract_imports, readable.
  destruct (fs file_path) as [[name [text|reason]|name cs|name reason]|];
    cbn [open_named negb]; try (split; reflexivity).
  split.
  - destruct (duplicates_of
                (Counter (candidate_lines min_length (Str.iter_lines text))))
      as [|d ds] eqn:Hdup; [reflexivity|].
    unfold duplicate_report. rewrite Hdup.
    destruct (sorted_desc (d :: ds)) as [|g gs] eqn:Hsorted.
    + apply (f_equal (@List.length _)) in Hsorted.
      rewrite sorted_desc_length in Hsorted. discriminate.
    + change (firstn 20 (map format_group (g :: gs)))
        with (format_group g :: firstn 19 (map format_group gs)).
      destruct (join_cons_head Str.newline (format_group g)
                  (firstn 19 (map format_group gs))) as [rest ->].
      reflexivity.
  - rewrite import_lines_filter, app_nil_l.
    destruct (filter is_import (map Str.strip (Str.iter_lines text)))
      as [|x xs] eqn:Hkept; [reflexivity|].
    assert (Hx : In x (filter is_import (map Str.strip (Str.iter_lines text))))
      by (rewrite Hkept; now left).
    apply filter_In in Hx. destruct Hx as [_ Hx]. apply is_import_shape in Hx.
    destruct (join_cons_head Str.newline x xs) as [rest ->].
    now apply import_shape_not_error.
Qed.

(** ** File statistics and line counts *)

Lemma split_newline_length (s : string) :
  List.length (Str.split "010" s) = S (count_newlines s).
Proof.
  induction s as [|c s IH]; simpl; [reflexivity|].
  destruct (Ascii.eqb c "010"); simpl.
  - now rewrite IH.
  - destruct (Str.split "010" s) as [|piece rest]; simpl in *; lia.
Qed.

Lemma lines_from_length (s : string) :
  forall (cur : string -> string) (pre : string),
    (forall t, cur t = pre ++ t) ->
    List.length (Str.lines_from cur s)
    = count_newlines s
      + (if open_tail (match pre with EmptyString => false | _ => true end) s
         then 1 else 0).
Proof.
  induction s as [|c s IH]; intros cur pre Hcur; simpl.
  - rewrite Hcur, append_nil_r. now destruct pre.
  - destruct (Ascii.eqb c "010").
    + simpl. rewrite (IH (fun t => t) "") by reflexivity. reflexivity.
    + rewrite (IH (fun t => cur (String c t)) (pre ++ String c "")).
      * now destruct pre.
      * intros t. rewrite Hcur, append_assoc. reflexivity.
Qed.

Lemma iter_lines_length (text : string) :
  List.length (Str.iter_lines text)
  = count_newlines text + (if unterminated text then 1 else 0).
Proof. unfold Str.iter_lines, unterminated. now apply (lines_from_length text _ ""). Qed.

Lemma filter_length_le {A : Type} (f : A -> bool) (l : list A) :
  List.length (filter f l) <= List.length l.
Proof.
  induction l as [|x l IH]; simpl; [lia|]. destruct (f x); simpl; lia.
Qed.

(** X13. For a readable file, [get_file_stats] counts the pieces between
    newlines, so its [lines] is one more than the number of newlines (1 for
    an empty file); it exceeds the line count [count_lines_of_code] uses for
    the same text by one, unless the text ends in a line without a newline,
    and then the two agree. [non_empty_lines] never exceeds [lines]. *)
Theorem file_stats_lines_against_line_count
  (st_size : string -> nat) (fs : filesystem) (file_path name text : string) :
  fs file_path = Some (File name (Text text)) ->
  exists stats,
    get_file_stats st_size fs file_path = inr stats
    /\ st_lines stats = S (count_newlines text)
    /\ st_lines stats
       = List.length (Str.iter_lines text) + (if unterminated text then 0 else 1)
    /\ st_non_empty_lines stats <= st_lines stats
    /\ st_characters stats = String.length text.
Proof.
  intros Hfile. unfold get_file_stats. rewrite Hfile. cbn [open_named].
  eexists. split; [reflexivity|]. cbn [st_lines st_non_empty_lines st_characters].
  rewrite split_newline_length, iter_lines_length.
  split; [reflexivity|]. split; [destruct (unterminated text); lia|].
  split; [|reflexivity].
  rewrite <- split_newline_length. apply filter_length_le.
Qed.

Lemma file_stats_lines_against_line_count_witness :
  exists stats,
    get_file_stats (fun _ => 42) demo_fs "proj/a.py" = inr stats
    /\ st_lines stats = 4
    /\ List.length (Str.iter_lines a_py) = 3.
Proof.
  destruct (file_stats_lines_against_line_count
              (fun _ => 42) demo_fs "proj/a.py" "a.py" a_py eq_refl)
    as (stats & Hstats & Hlines & _).
  exists stats. split; [exact Hstats|]. split; [rewrite Hlines|]; reflexivity.
Defined.

(** ** What reaches [eval] *)

Lemma all_allowed_spec (expression : string) :
  all_allowed expression = true
  <-> forall c, Str.contains c expression = true -> Str.contains c allowed_chars = true.
Proof.
  induction expression as [|d rest IH]; cbn [all_allowed Str.contains].
  - split; [intros _ c H; discriminate H | reflexivity].
  - rewrite andb_true_iff, IH. split.
    + intros [Hd Hrest] c Hc. apply orb_true_iff in Hc.
      destruct Hc as [Hc|Hc]; [|now apply Hrest].
      apply Ascii.eqb_eq in Hc. now subst c.
    + intros Hall. split.
      * apply Hall. now rewrite Ascii.eqb_refl.
      * intros c Hc. apply Hall. rewrite Hc. apply orb_true_r.
Qed.

(** X14. [calculate] hands to [eval] only expressions made of digits,
    [+ - * / . ( )] and spaces: an expression with any other character (a
    letter, an underscore, a quote, a comma) is answered with the
    invalid-characters error, whatever [eval] would do, and is never
    evaluated. *)
Theorem calculate_evaluates_only_allowed_characters
  (py_eval : string -> string + string) (expression : string) :
  (snd (calculate_run py_eval expression) = [expression]
   /\ forall c, Str.contains c expression = true
                -> Str.contains c allowed_chars = true)
  \/ (calculate_run py_eval expression
      = ("Error: Expression contains invalid characters", [])
      /\ exists c, Str.contains c expression = true
                   /\ Str.contains c allowed_chars = false).
Proof.
  unfold calculate_run.
  destruct (all_allowed expression) eqn:Hall; cbn [negb].
  - left. split; [now destruct (py_eval expression)|].
    exact (proj1 (all_allowed_spec expression) Hall).
  - right. split; [reflexivity|]. clear py_eval.
    induction expression as [|d rest IH]; [discriminate|].
    cbn [all_allowed] in Hall. apply andb_false_iff in Hall.
    destruct Hall as [Hd|Hrest].
    + exists d. split; [|exact Hd]. cbn [Str.contains]. now rewrite Ascii.eqb_refl.
    + destruct (IH Hrest) as (c & Hc & Hbad). exists c. split; [|exact Hbad].
      cbn [Str.contains]. rewrite Hc. apply orb_true_r.
Qed.

(** ** The marker pattern *)

Lemma capital_of_ci_match (c d : ascii) :
  is_capital c = true ->
  Re.cset_mem true (Re.CLit c) d = true ->
  Str.upper_char d = c.
Proof.
  unfold is_capital, Re.cset_mem, Str.lower_char, Str.upper_char.
  pose proof (nat_ascii_bounded c) as Hcb. pose proof (nat_ascii_bounded d) as Hdb.
  pose proof (ascii_nat_embedding c) as Hce. pose proof (ascii_nat_embedding d) as Hde.
  set (m := nat_of_ascii c) in *. set (n := nat_of_ascii d) in *.
  intros Hc Hd. rewrite Hc in Hd. apply Ascii.eqb_eq in Hd.
  apply andb_true_iff in Hc. destruct Hc as [Hc1 Hc2].
  apply Nat.leb_le in Hc1, Hc2.
  destruct ((65 <=? n) && (n <=? 90)) eqn:Hn.
  - apply andb_true_iff in Hn. destruct Hn as [Hn1 Hn2]. apply Nat.leb_le in Hn1, Hn2.
    apply (f_equal nat_of_ascii) in Hd.
    rewrite !nat_ascii_embedding in Hd by lia.
    assert (Hnm : n = m) by lia.
    replace ((97 <=? n) && (n <=? 122)) with false
      by (symmetry; apply andb_false_iff; left; apply Nat.leb_gt; lia).
    now rewrite <- Hde, <- Hce, Hnm.
  - assert (Hnm : n = m + 32).
    { unfold n. rewrite Hd. apply nat_ascii_embedding. lia. }
    replace ((97 <=? n) && (n <=? 122)) with true
      by (symmetry; apply andb_true_iff; split; apply Nat.leb_le; lia).
    replace (n - 32) with m by lia. exact Hce.
Qed.

Lemma upper_of_ci_match (w : string) :
  forall s,
    all_capital w = true -> starts_with true w s = true ->
    Str.upper (Str.take (String.length w) s) = w.
Proof.
  induction w as [|c w IH]; intros s Hcap Hs; [reflexivity|].
  cbn [all_capital] in Hcap. apply andb_true_iff in Hcap. destruct Hcap as [Hc Hw].
  destruct s as [|d s]; [discriminate|].
  cbn [starts_with] in Hs. apply andb_true_iff in Hs. destruct Hs as [Hd Hs].
  cbn [String.length Str.take Str.upper].
  now rewrite (capital_of_ci_match c d Hc Hd), (IH s Hw Hs).
Qed.

Lemma colon_of_ci_match (d : ascii) :
  Re.cset_mem true (Re.CLit ":") d = true -> d = ":"%char.
Proof.
  intros Hd. destruct d as [[] [] [] [] [] [] [] []]; try discriminate Hd; reflexivity.
Qed.

Lemma all_in_space (ic : bool) (s : string) : all_in ic Re.CSpace s = all_space s.
Proof. induction s as [|c s IH]; simpl; [reflexivity | now rewrite IH]. Qed.

Lemma take_append (a b : string) : Str.take (String.length a) (a ++ b) = a.
Proof. induction a as [|c a IH]; simpl; [now destruct b | now rewrite IH]. Qed.

Lemma run_star (ic : bool) (cs : Re.cset) (pos : nat) (s : string)
      (caps : Re.captures) (k : nat -> string -> Re.captures -> option Re.found) :
  Re.run ic (Re.Star cs) pos s caps k
  = Re.repeat_cset ic cs pos s (fun pos1 s1 => k pos1 s1 caps).
Proof. reflexivity. Qed.

Lemma run_alt_Some (ic : bool) (r1 r2 : Re.regex) (pos : nat) (s : string)
      (caps : Re.captures) (k : nat -> string -> Re.captures -> option Re.found)
      (m : Re.found) :
  Re.run ic (Re.Alt r1 r2) pos s caps k = Some m ->
  Re.run ic r1 pos s caps k = Some m \/ Re.run ic r2 pos s caps k = Some m.
Proof.
  simpl. destruct (Re.run ic r1 pos s caps k); [now left | now right].
Qed.

(** What follows the keyword: a colon, whitespace, and a message. *)
Lemma run_after_keyword (pos : nat) (t : string) (caps : Re.captures) (m : Re.found) :
  Re.run true
         (Re.Cat (Re.One (Re.CLit ":"))
                 (Re.Cat (Re.Star Re.CSpace) (Re.Group 2 (Re.Plus Re.CAny))))
         pos t caps Re.finish = Some m ->
  exists ws message post,
    t = ":" ++ ws ++ message ++ post
    /\ all_space ws = true
    /\ message <> ""
    /\ all_in true Re.CAny message = true
    /\ Re.m_groups m = (2, message) :: caps.
Proof.
  rewrite run_cat. cbn [Re.run]. destruct t as [|d t]; [discriminate|].
  destruct (Re.cset_mem true (Re.CLit ":") d) eqn:Hd; [|discriminate].
  apply colon_of_ci_match in Hd. subst d.
  intros Hrest. apply repeat_cset_sound in Hrest.
  destruct Hrest as (ws & b & -> & Hws & Hmsg).
  rewrite all_in_space in Hws.
  destruct b as [|c b]; [discriminate|].
  destruct (Re.cset_mem true Re.CAny c) eqn:Hc; [|discriminate].
  apply repeat_cset_sound in Hmsg.
  destruct Hmsg as (a & post & -> & Ha & Hfinish).
  unfold Re.finish in Hfinish. injection Hfinish as <-.
  exists ws, (String c a), post. cbn [Re.m_groups].
  repeat split; try assumption.
  - discriminate.
  - cbn [all_in]. now rewrite Hc, Ha.
  - do 2 f_equal.
    transitivity (Str.take (String.length (String c a)) (String c a ++ post));
      [|apply take_append].
    f_equal. simpl. destruct (pos + String.length ws); lia.
Qed.

(** One alternative of the keyword group. *)
Lemma run_keyword (w : string) (pos : nat) (s : string) (m : Re.found) :
  all_capital w = true -> In w todo_kinds ->
  Re.run true (Re.lit w) pos s []
         (fun pos1 s1 caps1 =>
            Re.run true
                   (Re.Cat (Re.One (Re.CLit ":"))
                           (Re.Cat (Re.Star Re.CSpace) (Re.Group 2 (Re.Plus Re.CAny))))
                   pos1 s1 ((1, Str.take (pos1 - pos) s) :: caps1) Re.finish)
  = Some m ->
  exists marker ws message post,
    s = marker ++ ":" ++ ws ++ message ++ post
    /\ Str.upper marker = w
    /\ all_space ws = true
    /\ message <> ""
    /\ all_in true Re.CAny message = true
    /\ Re.m_groups m = [(2, message); (1, marker)].
Proof.
  intros Hcap Hkind. rewrite run_lit.
  destruct (starts_with true w s) eqn:Hw; [|discriminate].
  intros Hrest. apply run_after_keyword in Hrest.
  destruct Hrest as (ws & message & post & Ht & Hws & Hne & Hmsg & Hgroups).
  replace (pos + String.length w - pos) with (String.length w) in Hgroups by lia.
  exists (Str.take (String.length w) s), ws, message, post.
  repeat split; try assumption.
  - rewrite <- Ht. symmetry. apply take_drop.
  - now apply upper_of_ci_match.
Qed.

Lemma run_todo_pattern (pos : nat) (s : string) (m : Re.found) :
  Re.run true todo_pattern pos s [] Re.finish = Some m ->
  exists marker ws message post,
    s = marker ++ ":" ++ ws ++ message ++ post
    /\ In (Str.upper marker) todo_kinds
    /\ all_space ws = true
    /\ message <> ""
    /\ all_in true Re.CAny message = true
    /\ Re.m_groups m = [(2, message); (1, marker)].
Proof.
  unfold todo_pattern. rewrite run_cat, run_group. intros Hrun.
  repeat (apply run_alt_Some in Hrun; destruct Hrun as [Hrun|Hrun]);
    (apply run_keyword in Hrun; [|reflexivity|simpl; tauto]);
    destruct Hrun as (marker & ws & message & post & Hs & Hkind & Hrest);
    exists marker, ws, message, post; (split; [exact Hs|]);
    (split; [rewrite Hkind; simpl; tauto | exact Hrest]).
Qed.

Lemma search_at_Some (ic : bool) (r : Re.regex) (s : string) :
  forall pos m,
    Re.search_at ic r pos s = Some m ->
    exists pre t,
      s = pre ++ t /\ Re.run ic r (pos + String.length pre) t [] Re.finish = Some m.
Proof.
  induction s as [|c s IH]; intros pos m; cbn [Re.search_at].
  - destruct (Re.run ic r pos "" [] Re.finish) as [m'|] eqn:Hrun; [|discriminate].
    intros Hm. injection Hm as <-. exists "", "". rewrite Nat.add_0_r. now split.
  - destruct (Re.run ic r pos (String c s) [] Re.finish) as [m'|] eqn:Hrun.
    + intros Hm. injection Hm as <-. exists "", (String c s).
      rewrite Nat.add_0_r. now split.
    + intros Hm. destruct (IH _ _ Hm) as (pre & t & -> & Ht).
      exists (String c pre), t. simpl. rewrite <- plus_n_Sm. now split.
Qed.

(** A line on which the marker pattern is found, and what is shown of it. *)
Lemma search_todo_pattern (line : string) (m : Re.found) :
  Re.search true todo_pattern line = Some m ->
  exists kind message,
    marker_line line kind message
    /\ Str.upper (Re.group 1 (Re.m_groups m)) = kind
    /\ Re.group 2 (Re.m_groups m) = message.
Proof.
  unfold Re.search. intros Hm. apply search_at_Some in Hm.
  destruct Hm as (pre & t & -> & Hrun). apply run_todo_pattern in Hrun.
  destruct Hrun as (marker & ws & message & post & -> & Hkind & Hws & Hne & Hmsg & Hgroups).
  exists (Str.upper marker), message. rewrite Hgroups. split; [|now split].
  exists pre, marker, ws, post. now repeat split.
Qed.




(** ** Searching and counting walk the same files *)

Lemma filter_map_none {A B : Type} (f : A -> B) (p : B -> bool) (l : list A) :
  (forall x, p (f x) = false) -> filter p (map f l) = [].
Proof.
  intros Hp. induction l as [|x l IH]; simpl; [reflexivity|]. now rewrite Hp.
Qed.

Lemma filter_map_all {A B : Type} (f : A -> B) (p : B -> bool) (l : list A) :
  (forall x, p (f x) = true) -> filter p (map f l) = map f l.
Proof.
  intros Hp. induction l as [|x l IH]; simpl; [reflexivity|]. now rewrite Hp, IH.
Qed.

Lemma full_read_counts (extensions : option (list string)) (entries : list entry) :
  files_opened (flat_map (full_read extensions) entries)
  = List.length (counted extensions entries)
  /\ lines_read (flat_map (full_read extensions) entries)
     = list_sum (map entry_lines (counted extensions entries)).
Proof.
  unfold files_opened, lines_read.
  induction entries as [|e entries [IHo IHr]]; simpl; [split; reflexivity|].
  rewrite !filter_app, !length_app, IHo, IHr.
  unfold full_read, entry_lines.
  destruct (selected extensions e); simpl; [|split; reflexivity].
  destruct (open_entry e) as [text|] eqn:Hopen; simpl; [|split; reflexivity].
  rewrite Hopen.
  rewrite (filter_map_none (ReadLine (e_path e)) is_opened) by reflexivity.
  rewrite (filter_map_all (ReadLine (e_path e)) (fun ev => negb (is_opened ev)))
    by reflexivity.
  rewrite length_map, length_seq. simpl. split; reflexivity.
Qed.

(** X16. With a pattern that compiles, [search_code] and
    [count_lines_of_code] walk the same files under the same root and
    filter: the search opens as many files as the count reports in
    [total_files], and reads as many lines as it reports in
    [total_lines]. *)
Theorem search_opens_what_count_counts
  (re : re_module) (fs : filesystem) (pattern directory : string)
  (file_extensions : option string) (compiled : re_pattern re) :
  re_compile re pattern = Some compiled ->
  files_opened (log (search_run re fs pattern directory file_extensions))
  = total_files (count_lines_of_code fs directory file_extensions)
  /\ lines_read (log (search_run re fs pattern directory file_extensions))
     = total_lines (count_lines_of_code fs directory file_extensions).
Proof.
  intros Hok. unfold search_run, search_entries, count_lines_of_code, count_entries.
  rewrite (search_fold_log_compiled re pattern compiled Hok). simpl log.
  rewrite app_nil_l.
  destruct (full_read_counts (parse_extensions file_extensions) (rglob fs directory))
    as [Ho Hr].
  destruct (count_fold_facts (parse_extensions file_extensions) (rglob fs directory)
              {| total_files := 0; total_lines := 0; by_extension := [] |})
    as (Hf & Hl & _).
  rewrite Ho, Hr, Hf, Hl. split; reflexivity.
Qed.

Lemma search_opens_what_count_counts_witness :
  files_opened (log (search_run literal_re demo_fs "x" "proj" None)) = 4
  /\ lines_read (log (search_run literal_re demo_fs "x" "proj" None)) = 9.
Proof.
  destruct (search_opens_what_count_counts
              literal_re demo_fs "x" "proj" None (Re.lit "x") eq_refl) as [Ho Hr].
  rewrite Ho, Hr. split; reflexivity.
Defined.

(** ** Every marker line is found *)

Lemma ci_match_of_upper (c d : ascii) :
  is_capital c = true -> Str.upper_char d = c ->
  Re.cset_mem true (Re.CLit c) d = true.
Proof.
  unfold is_capital, Re.cset_mem, Str.lower_char, Str.upper_char.
  pose proof (nat_ascii_bounded d) as Hdb.
  pose proof (ascii_nat_embedding d) as Hde.
  set (n := nat_of_ascii d) in *.
  intros Hc Hd. apply Ascii.eqb_eq.
  destruct ((97 <=? n) && (n <=? 122)) eqn:Hn.
  - apply andb_true_iff in Hn. destruct Hn as [Hn1 Hn2]. apply Nat.leb_le in Hn1, Hn2.
    subst c. rewrite nat_ascii_embedding in * by lia.
    rewrite Hc.
    replace ((65 <=? n) && (n <=? 90)) with false
      by (symmetry; apply andb_false_iff; right; apply Nat.leb_gt; lia).
    replace (n - 32 + 32) with n by lia. now symmetry.
  - subst c. reflexivity.
Qed.

Lemma starts_with_of_upper (w : string) :
  forall marker rest,
    all_capital w = true -> Str.upper marker = w ->
    starts_with true w (marker ++ rest) = true
    /\ Str.drop (String.length w) (marker ++ rest) = rest.
Proof.
  induction w as [|c w IH]; intros marker rest Hcap Hup.
  - destruct marker; [split; [reflexivity | now destruct rest] | discriminate].
  - destruct marker as [|d marker]; [discriminate|].
    cbn [Str.upper] in Hup. injection Hup as Hd Hup.
    cbn [all_capital] in Hcap. apply andb_true_iff in Hcap. destruct Hcap as [Hc Hw].
    destruct (IH marker rest Hw Hup) as [Hs Hdrop].
    cbn [append starts_with String.length Str.drop].
    rewrite (ci_match_of_upper c d Hc Hd), Hs. split; [reflexivity | exact Hdrop].
Qed.

Lemma run_one (ic : bool) (cs : Re.cset) (pos : nat) (c : ascii) (s : string)
      (caps : Re.captures) (k : nat -> string -> Re.captures -> option Re.found) :
  Re.run ic (Re.One cs) pos (String c s) caps k
  = if Re.cset_mem ic cs c then k (S pos) s caps else None.
Proof. reflexivity. Qed.

Lemma run_after_keyword_complete (pos : nat) (ws message post : string)
      (caps : Re.captures) :
  all_space ws = true -> message <> "" -> all_in true Re.CAny message = true ->
  succeeds (Re.run true
              (Re.Cat (Re.One (Re.CLit ":"))
                      (Re.Cat (Re.Star Re.CSpace) (Re.Group 2 (Re.Plus Re.CAny))))
              pos (":" ++ ws ++ message ++ post) caps Re.finish) = true.
Proof.
  intros Hws Hne Hmsg. rewrite run_cat.
  change (":" ++ ws ++ message ++ post) with (String ":" (ws ++ message ++ post)).
  rewrite run_one. change (Re.cset_mem true (Re.CLit ":") ":") with true. cbv iota.
  rewrite run_cat, run_star.
  apply (repeat_cset_complete true Re.CSpace ws (message ++ post));
    [now rewrite all_in_space|].
  rewrite run_group.
  apply (run_plus_complete true Re.CAny _ message post); [exact Hne | exact Hmsg|].
  reflexivity.
Qed.

Lemma run_keyword_complete (w : string) (pos : nat) (marker ws message post : string) :
  all_capital w = true -> Str.upper marker = w ->
  all_space ws = true -> message <> "" -> all_in true Re.CAny message = true ->
  succeeds
    (Re.run true (Re.lit w) pos (marker ++ ":" ++ ws ++ message ++ post) []
            (fun pos1 s1 caps1 =>
               Re.run true
                      (Re.Cat (Re.One (Re.CLit ":"))
                              (Re.Cat (Re.Star Re.CSpace)
                                      (Re.Group 2 (Re.Plus Re.CAny))))
                      pos1 s1
                      ((1, Str.take (pos1 - pos)
                                    (marker ++ ":" ++ ws ++ message ++ post)) :: caps1)
                      Re.finish)) = true.
Proof.
  intros Hcap Hup Hws Hne Hmsg. rewrite run_lit.
  destruct (starts_with_of_upper w marker (":" ++ ws ++ message ++ post) Hcap Hup)
    as [Hs Hdrop].
  rewrite Hs, Hdrop. now apply run_after_keyword_complete.
Qed.

Lemma run_todo_pattern_complete (pos : nat) (marker ws message post : string) :
  In (Str.upper marker) todo_kinds ->
  all_space ws = true -> message <> "" -> all_in true Re.CAny message = true ->
  succeeds (Re.run true todo_pattern pos (marker ++ ":" ++ ws ++ message ++ post)
                   [] Re.finish) = true.
Proof.
  intros Hkind Hws Hne Hmsg. unfold todo_pattern.
  rewrite run_cat, run_group, !succeeds_alt.
  simpl in Hkind.
  destruct Hkind as [Hk|[Hk|[Hk|[Hk|[Hk|[]]]]]]; symmetry in Hk;
    match type of Hk with
    | Str.upper marker = ?w =>
        rewrite (run_keyword_complete w pos marker ws message post
                   eq_refl Hk Hws Hne Hmsg)
    end;
    now rewrite ?orb_true_r.
Qed.

Lemma search_at_complete (ic : bool) (r : Re.regex) (pre : string) :
  forall pos t,
    succeeds (Re.run ic r (pos + String.length pre) t [] Re.finish) = true ->
    succeeds (Re.search_at ic r pos (pre ++ t)) = true.
Proof.
  induction pre as [|c pre IH]; intros pos t Hrun; cbn [append String.length] in *.
  - rewrite Nat.add_0_r in Hrun. destruct t; cbn [Re.search_at];
      destruct (Re.run ic r pos _ [] Re.finish); try reflexivity; discriminate.
  - cbn [Re.search_at].
    destruct (Re.run ic r pos (String c (pre ++ t)) [] Re.finish); [reflexivity|].
    apply IH.
    replace (S pos + String.length pre) with (pos + S (String.length pre)) by lia.
    exact Hrun.
Qed.

Lemma marker_line_found (line kind message : string) :
  marker_line line kind message ->
  exists m, Re.search true todo_pattern line = Some m.
Proof.
  intros (pre & marker & ws & post & -> & Hup & Hkind & Hws & Hne & Hmsg).
  assert (Hfound : succeeds (Re.search true todo_pattern
                               (pre ++ marker ++ ":" ++ ws ++ message ++ post)) = true).
  { unfold Re.search. apply search_at_complete.
    apply run_todo_pattern_complete; try assumption. now rewrite Hup. }
  destruct (Re.search true todo_pattern _) as [m|]; [now exists m | discriminate].
Qed.

Lemma todo_lines_grows (path : string) (lines : list string) :
  forall n todos r, In r todos -> In r (todo_lines path n lines todos).
Proof.
  induction lines as [|line rest IH]; intros n todos r Hr; simpl; [exact Hr|].
  destruct (Re.search true todo_pattern line); apply IH; [|exact Hr].
  apply in_or_app. now left.
Qed.

Lemma todo_lines_finds (path : string) (lines : list string) :
  forall n todos k line m,
    nth_error lines k = Some line ->
    Re.search true todo_pattern line = Some m ->
    In (format_todo path (n + k) m) (todo_lines path n lines todos).
Proof.
  induction lines as [|l rest IH]; intros n todos k line m Hnth Hm;
    [destruct k; discriminate|].
  destruct k as [|k]; simpl in Hnth.
  - injection Hnth as ->. simpl. rewrite Hm, Nat.add_0_r.
    apply todo_lines_grows, in_or_app. right. now left.
  - simpl. rewrite <- plus_n_Sm.
    destruct (Re.search true todo_pattern l); now apply (IH (S n) _ k line m).
Qed.

Lemma todo_fold_grows (entries : list entry) :
  forall todos r, In r todos -> In r (fold_left todo_visit entries todos).
Proof.
  induction entries as [|e entries IH]; intros todos r Hr; simpl; [exact Hr|].
  apply IH. unfold todo_visit.
  destruct (is_file e && Str.mem (suffix (e_name e)) source_suffixes); [|exact Hr].
  destruct (open_entry e); [now apply todo_lines_grows | exact Hr].
Qed.

(** X17. For text of code points below 256, and when the walk runs to its
    end (pathlib raises neither at the root nor at an entry): [find_todos]
    misses no marker line. For every readable file of the walk with a source
    suffix, every line that holds a keyword (in any mix of cases), a colon,
    optional whitespace and a non-empty message has a hit with that file's
    path and that line's number among the hits, and the answer is the list
    of the hits, one to a line. *)
Theorem every_marker_line_is_hit
  (fs : filesystem) (directory : string) (e : entry)
  (text line kind message : string) (k : nat) :
  walk_error fs directory = None ->
  In e (rglob fs directory) ->
  is_file e = true ->
  In (suffix (e_name e)) source_suffixes ->
  open_entry e = Some text ->
  nth_error (Str.iter_lines text) k = Some line ->
  marker_line line kind message ->
  find_todos fs directory = Str.join Str.newline (todo_hits fs directory)
  /\ exists kind' message',
       marker_line line kind' message'
       /\ In (e_path e ++ ":" ++ Str.of_nat (S k) ++ " - " ++ kind' ++ ": "
                     ++ Str.strip message')
             (todo_hits fs directory).
Proof.
  intros Hwalk He Hfile Hsuffix Hopen Hnth Hline.
  destruct (marker_line_found line kind message Hline) as [m Hm].
  destruct (search_todo_pattern line m Hm) as (kind' & message' & Hline' & Hk & Hg).
  assert (Hhit : In (e_path e ++ ":" ++ Str.of_nat (S k) ++ " - " ++ kind' ++ ": "
                            ++ Str.strip message')
                    (todo_hits fs directory)).
  { unfold todo_hits. apply in_split in He. destruct He as (before & after & ->).
    rewrite fold_left_app. cbn [fold_left]. apply todo_fold_grows.
    unfold todo_visit at 1. rewrite Hfile, (proj2 (mem_In _ _) Hsuffix), Hopen.
    cbn [andb].
    pose proof (todo_lines_finds (e_path e) (Str.iter_lines text) 1
                  (fold_left todo_visit before []) k line m Hnth Hm) as Hin.
    unfold format_todo in Hin. now rewrite Hk, Hg in Hin. }
  split.
  - unfold find_todos. rewrite Hwalk.
    destruct (todo_hits fs directory); [destruct Hhit | reflexivity].
  - exists kind', message'. split; [exact Hline' | exact Hhit].
Qed.

Lemma every_marker_line_is_hit_witness :
  find_todos demo_fs "proj" = "proj/sub/b.cpp:1 - TODO: fix this"
  /\ exists kind message,
       marker_line ("// TODO: fix this" ++ nl) kind message
       /\ In ("proj/sub/b.cpp:1 - " ++ kind ++ ": " ++ Str.strip message)
             (todo_hits demo_fs "proj").
Proof.
  assert (Hline : marker_line ("// TODO: fix this" ++ nl) "TODO" "fix this").
  { exists "// ", "TODO", " ", nl. repeat split; try reflexivity;
      [simpl; tauto | discriminate]. }
  destruct (every_marker_line_is_hit demo_fs "proj"
              {| e_path := "proj/sub/b.cpp"; e_name := "b.cpp";
                 e_kind := IsFile (Text b_cpp) |}
              b_cpp ("// TODO: fix this" ++ nl) "TODO" "fix this" 0)
    as [Hanswer Hhit].
  - reflexivity.
  - simpl. tauto.
  - reflexivity.
  - simpl. tauto.
  - reflexivity.
  - reflexivity.
  - exact Hline.
  - split; [rewrite Hanswer; reflexivity | exact Hhit].
Defined.
